(** * Crumbelore: a shallow embedding of the book catalogue, the reservation
    manager, the session stub (src/public/js/bookSystem.js, auth.js) and the
    record store and HTTP routing of src/server.js. *)

From Stdlib Require Import ZArith String Ascii List Bool Lia Permutation Sorted.
Import ListNotations.
Open Scope Z_scope.
Open Scope string_scope.

(* ------------------------------------------------------------------------ *)
(** ** Character and string helpers (JS string methods over ASCII text) *)

Module JsString.

(** Code point of a character. *)
Definition code (c : ascii) : Z := Z.of_nat (nat_of_ascii c).

(** [String.prototype.toLowerCase] on ASCII: A-Z become a-z. *)
Definition lower_char (c : ascii) : ascii :=
  let n := nat_of_ascii c in
  if (65 <=? n)%nat && (n <=? 90)%nat then ascii_of_nat (n + 32) else c.

Fixpoint toLowerCase (s : string) : string :=
  match s with
  | EmptyString => EmptyString
  | String c s' => String (lower_char c) (toLowerCase s')
  end.

(** The ASCII members of the JS white-space and line-terminator classes
    (used by [\s], [trim] and [parseInt]): TAB, LF, VT, FF, CR, SPACE. *)
Definition is_space (c : ascii) : bool :=
  let n := nat_of_ascii c in
  ((9 <=? n)%nat && (n <=? 13)%nat) || (n =? 32)%nat.

(** [s.startsWith(t)] *)
Fixpoint startsWith (s t : string) {struct t} : bool :=
  match t, s with
  | EmptyString, _ => true
  | String c t', String d s' => Ascii.eqb c d && startsWith s' t'
  | String _ _, EmptyString => false
  end.

(** [s.includes(t)]: [t] occurs in [s] at some position. *)
Fixpoint includes (s t : string) : bool :=
  startsWith s t ||
  match s with
  | EmptyString => false
  | String _ s' => includes s' t
  end.

(** [s.trim()] is truthy iff [s] has a non-white-space character. *)
Fixpoint trim_nonempty (s : string) : bool :=
  match s with
  | EmptyString => false
  | String c s' => negb (is_space c) || trim_nonempty s'
  end.

(** [s.split('@')[0]]: the part before the first '@'. *)
Fixpoint split_at_first (sep : ascii) (s : string) : string :=
  match s with
  | EmptyString => EmptyString
  | String c s' => if Ascii.eqb c sep then EmptyString else String c (split_at_first sep s')
  end.

(** Decimal rendering of an integer, as [String(n)] / [n.toString()] for
    the integer values (timestamps) the code renders. *)
Fixpoint digits_rev (fuel : nat) (n : Z) (acc : string) : string :=
  match fuel with
  | O => acc
  | S f =>
      let acc' := String (ascii_of_nat (48 + Z.to_nat (n mod 10))%nat) acc in
      if Z.eqb (n / 10) 0 then acc' else digits_rev f (n / 10) acc'
  end.

Definition to_dec (n : Z) : string :=
  let m := Z.abs n in
  let ds := digits_rev (S (Z.to_nat (Z.log2 m))) m EmptyString in
  if Z.ltb n 0 then String "-" ds else ds.

End JsString.

Import JsString.

(* ------------------------------------------------------------------------ *)
(** ** Data model (bookSystem.js, auth.js) *)

(** A book icon is the value read from [iconMap] in [getGenreIcon]: an icon
    class name, or a member inherited from [Object.prototype] when the genre
    names one (e.g. [iconMap['constructor']] is the function [Object]). *)
Inductive icon_val :=
| IconName (cls : string)
| ProtoMember (name : string).

(** A book record.  [rating] (a float, set to 0 by [addBook] and never read
    by the operations below) is left out. *)
Record book := mkBook {
  b_id : string;
  title : string;
  author : string;
  genre : string;
  description : string;
  totalCopies : Z;
  availableCopies : Z;
  isbn : string;
  pages : Z;
  year : Z;
  icon : icon_val;
  tags : list string
}.

(** Reservation status: the strings ['active'] and ['cancelled']. *)
Inductive status := Active | Cancelled.

Definition status_eqb (a b : status) : bool :=
  match a, b with
  | Active, Active | Cancelled, Cancelled => true
  | _, _ => false
  end.

(** A reservation; dates are the millisecond time values whose
    [toISOString()] the code stores. *)
Record reservation := mkRes {
  r_id : string;
  r_bookId : string;
  r_userId : Z;
  userEmail : string;
  userName : string;
  bookTitle : string;
  bookAuthor : string;
  reservationDate : Z;
  expiryDate : Z;
  r_status : status;
  cancelledDate : option Z;
  notes : string
}.

(** A user as stored in [sessionStorage['currentUser']]. *)
Record user := mkUser {
  u_id : Z;
  u_email : string;
  u_name : string;
  u_type : string
}.

(** The state of a [BookSystem] object: [this.books], [this.reservations],
    and the copies last written to [localStorage] by [saveBooks] and
    [saveReservations]. *)
Record bs_state := mkState {
  books : list book;
  reservations : list reservation;
  saved_books : list book;
  saved_reservations : list reservation
}.

Definition saveBooks (st : bs_state) : bs_state :=
  mkState st.(books) st.(reservations) st.(books) st.(saved_reservations).

Definition saveReservations (st : bs_state) : bs_state :=
  mkState st.(books) st.(reservations) st.(saved_books) st.(reservations).

(** The four [sessionStorage] keys the session stub uses, each with the
    value the code writes there: [authToken], [currentUser] (the
    [JSON.stringify]ed user, kept as the user it decodes to), [userType]
    and [authExpiry] (the decimal string of a time value, kept as that
    value). *)
Record session := mkSession {
  authToken : option string;
  currentUser : option user;
  userType : option string;
  authExpiry : option Z
}.

Definition empty_session : session := mkSession None None None None.

(** The browser globals seen by [reserveBook]/[cancelReservation]:
    whether [window.authSystem] is defined, and [sessionStorage]. *)
Record env := mkEnv {
  auth_loaded : bool;
  storage : session
}.

(** A clock: [clk k] is the value of [Date.now()] at the [k]-th program
    point of an operation where the code reads the time. *)
Definition clock := nat -> Z.

(* ------------------------------------------------------------------------ *)
(** ** Session stub (auth.js) *)

Module Auth.

(** [logout()]: removes the four keys (the redirect is not modelled). *)
Definition logout (s : session) : session := empty_session.

(** [getCurrentUser()] at time [now]. *)
Definition getCurrentUser (now : Z) (s : session) : option user * session :=
  match s.(currentUser) with
  | None => (None, s)
  | Some u =>
      match s.(authExpiry) with
      | Some e => if Z.ltb e now then (None, logout s) else (Some u, s)
      | None => (Some u, s)
      end
  end.

(** [isAuthenticated()] *)
Definition isAuthenticated (now : Z) (s : session) : bool * session :=
  let '(u, s') := getCurrentUser now s in
  (match u with Some _ => true | None => false end, s').

(** Result of [login]/[handleOfflineLogin]. *)
Inductive login_result :=
| LoginOk (u : user)
| LoginFail (error : string).

(** [storeSession(token, user, userType)] at time [now]. *)
Definition storeSession (now : Z) (token : string) (u : user) (ty : string)
    (s : session) : session :=
  mkSession (Some token) (Some u) (Some ty) (Some (now + 4 * 60 * 60 * 1000)).

(** [handleOfflineLogin(email, password, userType)]; [clk 0] is the
    [Date.now()] of the user id, [clk 1] the one of the token. *)
Definition handleOfflineLogin (clk : clock) (email password ty : string)
    (s : session) : login_result * session :=
  if (email =? "") || (password =? "") then
    (LoginFail "Email and password required", s)
  else if negb (includes email "@") then
    (LoginFail "Invalid email format", s)
  else
    let demoUser := mkUser (clk 0%nat) email (split_at_first "@" email) ty in
    let s1 := mkSession (Some ("demo-token-" ++ to_dec (clk 1%nat)))
                        s.(currentUser) s.(userType) s.(authExpiry) in
    let s2 := mkSession s1.(authToken) (Some demoUser) s1.(userType) s1.(authExpiry) in
    let s3 := mkSession s2.(authToken) s2.(currentUser) (Some ty) s2.(authExpiry) in
    (LoginOk demoUser, s3).

(** What the server's login endpoint answers in connected mode. *)
Inductive server_reply :=
| ReplyOk (token : string) (u : user)
| ReplyError (message : string)
| ConnectionFailed.

(** [login(email, password, userType)]: the offline branch, or the
    connected branch given the server's reply; [clk 2] is the [Date.now()]
    read by [storeSession]. *)
Definition login (offline : bool) (reply : server_reply) (clk : clock)
    (email password ty : string) (s : session) : login_result * session :=
  if offline then handleOfflineLogin clk email password ty s
  else match reply with
       | ReplyOk tok u => (LoginOk u, storeSession (clk 2%nat) tok u ty s)
       | ReplyError m => (LoginFail m, s)
       | ConnectionFailed => (LoginFail "Connection failed", s)
       end.

End Auth.

(* ------------------------------------------------------------------------ *)
(** ** List helpers for in-place mutation of the object found by [find] *)

(** Apply [f] to the first element satisfying [p] (the object [find]
    returns and the code then mutates); the list is unchanged if none does. *)
Fixpoint update_first {A} (p : A -> bool) (f : A -> A) (l : list A) : list A :=
  match l with
  | [] => []
  | x :: l' => if p x then f x :: l' else x :: update_first p f l'
  end.

(** [l.splice(l.findIndex(p), 1)] when the index is not -1. *)
Fixpoint remove_first {A} (p : A -> bool) (l : list A) : list A :=
  match l with
  | [] => []
  | x :: l' => if p x then l' else x :: remove_first p l'
  end.

(* ------------------------------------------------------------------------ *)
(** ** BookSystem (bookSystem.js) *)

Module BookSystem.

Definition with_available (n : Z) (b : book) : book :=
  mkBook b.(b_id) b.(title) b.(author) b.(genre) b.(description)
         b.(totalCopies) n b.(isbn) b.(pages) b.(year) b.(icon) b.(tags).

Definition with_cancelled (t : Z) (r : reservation) : reservation :=
  mkRes r.(r_id) r.(r_bookId) r.(r_userId) r.(userEmail) r.(userName)
        r.(bookTitle) r.(bookAuthor) r.(reservationDate) r.(expiryDate)
        Cancelled (Some t) r.(notes).

(** [getBookById(bookId)] *)
Definition getBookById (bs : list book) (bookId : string) : option book :=
  find (fun b => b.(b_id) =? bookId) bs.

(** The JS error messages the operations report. *)
Definition msg_login := "Please log in to reserve books".
Definition msg_book_not_found := "Book not found".
Definition msg_no_copies := "No copies available for reservation".
Definition msg_duplicate := "You already have this book reserved".
Definition msg_res_not_found := "Reservation not found".
Definition msg_unauthorized := "Unauthorized to cancel this reservation".
(** [TypeError]s: reading [id] of a [null] user, and calling
    [getCurrentUser] on an undefined [window.authSystem]. *)
Definition msg_null_user := "Cannot read properties of null (reading 'id')".
Definition msg_no_auth := "Cannot read properties of undefined (reading 'getCurrentUser')".

(** Results of the reservation operations: the [{success, ...}] objects. *)
Inductive reserve_result :=
| ReserveOk (reservationId : string) (expiry : Z)
| ReserveFail (error : string).

Inductive cancel_result :=
| CancelOk
| CancelFail (error : string).

Definition reserve_success (r : reserve_result) : bool :=
  match r with ReserveOk _ _ => true | ReserveFail _ => false end.

Definition cancel_success (r : cancel_result) : bool :=
  match r with CancelOk => true | CancelFail _ => false end.

Definition seven_days : Z := 7 * 24 * 60 * 60 * 1000.

(** [reserveBook(bookId, reservationData)], with [notes_in] the value of
    [reservationData?.notes].  Time is read at five program points:
    0 in [isAuthenticated()], 1 in [getCurrentUser()], 2 for the id,
    3 for [reservationDate], 4 for [expiryDate].
    When [getCurrentUser()] returns [null] (the session expired between
    points 0 and 1), [user.id] is read either inside the duplicate search
    (at the first reservation of this book) or, if there is none, when the
    reservation object is built: both throw the same [TypeError] before any
    mutation. The fire-and-forget [syncWithServer()] does not change the
    state (its requests are [syncWithServer_requests] below). *)
Definition reserveBook (clk : clock) (e : env) (st : bs_state)
    (bookId : string) (notes_in : option string)
    : reserve_result * env * bs_state :=
  if negb e.(auth_loaded) then (ReserveFail msg_login, e, st) else
  let '(authed, s1) := Auth.isAuthenticated (clk 0%nat) e.(storage) in
  let e1 := mkEnv true s1 in
  if negb authed then (ReserveFail msg_login, e1, st) else
  let '(ou, s2) := Auth.getCurrentUser (clk 1%nat) s1 in
  let e2 := mkEnv true s2 in
  match getBookById st.(books) bookId with
  | None => (ReserveFail msg_book_not_found, e2, st)
  | Some b =>
      if Z.leb b.(availableCopies) 0 then (ReserveFail msg_no_copies, e2, st) else
      match ou with
      | None => (ReserveFail msg_null_user, e2, st)
      | Some u =>
          let existing := find (fun r => (r.(r_bookId) =? bookId)
                                         && Z.eqb r.(r_userId) u.(u_id)
                                         && status_eqb r.(r_status) Active)
                               st.(reservations) in
          match existing with
          | Some _ => (ReserveFail msg_duplicate, e2, st)
          | None =>
              let res := mkRes ("RES-" ++ to_dec (clk 2%nat)) bookId u.(u_id)
                               u.(u_email) u.(u_name) b.(title) b.(author)
                               (clk 3%nat) (clk 4%nat + seven_days) Active None
                               (match notes_in with Some n => n | None => "" end) in
              let st1 := mkState
                (update_first (fun b => b.(b_id) =? bookId)
                   (fun b => with_available (b.(availableCopies) - 1) b) st.(books))
                (st.(reservations) ++ [res]) st.(saved_books) st.(saved_reservations) in
              (ReserveOk res.(r_id) res.(expiryDate), e2,
               saveReservations (saveBooks st1))
          end
      end
  end.

(** [cancelReservation(reservationId)]; time is read at point 0 in
    [getCurrentUser()] and at point 1 for [cancelledDate]. *)
Definition cancelReservation (clk : clock) (e : env) (st : bs_state)
    (reservationId : string) : cancel_result * env * bs_state :=
  match find (fun r => r.(r_id) =? reservationId) st.(reservations) with
  | None => (CancelFail msg_res_not_found, e, st)
  | Some r =>
      if negb e.(auth_loaded) then (CancelFail msg_no_auth, e, st) else
      let '(ou, s1) := Auth.getCurrentUser (clk 0%nat) e.(storage) in
      let e1 := mkEnv true s1 in
      match ou with
      | None => (CancelFail msg_null_user, e1, st)
      | Some u =>
          if negb (Z.eqb r.(r_userId) u.(u_id))
          then (CancelFail msg_unauthorized, e1, st)
          else
            let rs := update_first (fun r => r.(r_id) =? reservationId)
                        (with_cancelled (clk 1%nat)) st.(reservations) in
            let bs := update_first (fun b => b.(b_id) =? r.(r_bookId))
                        (fun b => with_available (b.(availableCopies) + 1) b)
                        st.(books) in
            (CancelOk, e1,
             saveReservations (saveBooks (mkState bs rs st.(saved_books) st.(saved_reservations))))
      end
  end.

(** *** Admin functions *)

(** [parseInt(s)] with no radix: leading white space, an optional sign, a
    [0x]/[0X] prefix selecting radix 16, then the longest prefix of digits
    of the radix; [None] is [NaN].  (Digit strings beyond 2^53 are rounded
    by JS; the model keeps them exact.) *)
Definition digit_value (radix : Z) (c : ascii) : option Z :=
  let n := code c in
  let v := if Z.leb 48 n && Z.leb n 57 then Some (n - 48)
           else if Z.leb 97 n && Z.leb n 122 then Some (n - 87)
           else if Z.leb 65 n && Z.leb n 90 then Some (n - 55)
           else None in
  match v with
  | Some d => if Z.ltb d radix then Some d else None
  | None => None
  end.

Fixpoint digits_prefix (radix : Z) (s : string) (acc : Z) (seen : bool) : option Z :=
  match s with
  | EmptyString => if seen then Some acc else None
  | String c s' =>
      match digit_value radix c with
      | Some d => digits_prefix radix s' (acc * radix + d) true
      | None => if seen then Some acc else None
      end
  end.

Fixpoint trim_start (s : string) : string :=
  match s with
  | String c s' => if is_space c then trim_start s' else s
  | EmptyString => EmptyString
  end.

Definition parseInt (s : string) : option Z :=
  let s1 := trim_start s in
  let '(sign, s2) := match s1 with
                     | String "-" r => (-1, r)
                     | String "+" r => (1, r)
                     | _ => (1, s1)
                     end in
  let '(radix, s3) := match s2 with
                      | String "0" (String x r) =>
                          if (Ascii.eqb x "x") || (Ascii.eqb x "X") then (16, r) else (10, s2)
                      | _ => (10, s2)
                      end in
  option_map (fun n => sign * n) (digits_prefix radix s3 0 false).

(** [String(v)] of an optional form value ([undefined] renders as the
    text ["undefined"]). *)
Definition js_to_string (v : option string) : string :=
  match v with Some s => s | None => "undefined" end.

(** [x || d] on the number [x]: [NaN] and [0] (also [-0]) are falsy. *)
Definition or_default (x : option Z) (d : Z) : Z :=
  match x with
  | Some n => if Z.eqb n 0 then d else n
  | None => d
  end.

(** [.replace(/\s+/g, '-')]: every maximal run of white space becomes one
    hyphen ([in_run] is true inside a run already replaced). *)
Fixpoint replace_ws_runs (in_run : bool) (s : string) : string :=
  match s with
  | EmptyString => EmptyString
  | String c s' =>
      if is_space c then
        (if in_run then replace_ws_runs true s' else String "-" (replace_ws_runs true s'))
      else String c (replace_ws_runs false s')
  end.

(** The class [[a-z0-9-]]. *)
Definition slug_char (c : ascii) : bool :=
  let n := code c in
  (Z.leb 97 n && Z.leb n 122) || (Z.leb 48 n && Z.leb n 57) || Z.eqb n 45.

(** [.replace(/[^a-z0-9-]/g, '')] *)
Fixpoint strip_non_slug (s : string) : string :=
  match s with
  | EmptyString => EmptyString
  | String c s' => if slug_char c then String c (strip_non_slug s') else strip_non_slug s'
  end.

(** The id expression of [addBook]. *)
Definition slug (t : string) : string :=
  strip_non_slug (replace_ws_runs false (toLowerCase t)).

(** [iconMap] of [getGenreIcon]. *)
Definition iconMap : list (string * string) :=
  [("Mystery & Thriller", "fas fa-search");
   ("Romance", "fas fa-heart");
   ("Science Fiction", "fas fa-rocket");
   ("Fantasy", "fas fa-magic");
   ("Self-Help", "fas fa-brain");
   ("Biography", "fas fa-user");
   ("History", "fas fa-landmark");
   ("Poetry", "fas fa-feather-alt");
   ("Young Adult", "fas fa-star")].

(** The properties an object literal inherits from [Object.prototype];
    all of them are truthy. *)
Definition object_prototype_members : list string :=
  ["constructor"; "__defineGetter__"; "__defineSetter__"; "hasOwnProperty";
   "__lookupGetter__"; "__lookupSetter__"; "isPrototypeOf";
   "propertyIsEnumerable"; "toString"; "valueOf"; "__proto__"; "toLocaleString"].

Fixpoint assoc (k : string) (l : list (string * string)) : option string :=
  match l with
  | [] => None
  | (k', v) :: l' => if k' =? k then Some v else assoc k l'
  end.

(** [getGenreIcon(genre)]: [iconMap[genre] || 'fas fa-book']. *)
Definition getGenreIcon (g : string) : icon_val :=
  match assoc g iconMap with
  | Some cls => IconName cls
  | None =>
      if existsb (String.eqb g) object_prototype_members then ProtoMember g
      else IconName "fas fa-book"
  end.

(** The [bookData] argument of [addBook] (form values). *)
Record book_input := mkInput {
  in_title : string;
  in_author : string;
  in_genre : string;
  in_description : option string;
  in_copies : option string;
  in_isbn : option string;
  in_pages : option string;
  in_year : option string;
  in_tags : option (list string)
}.

Definition copies_of (d : book_input) : Z :=
  or_default (parseInt (js_to_string d.(in_copies))) 1.

(** [addBook(bookData)]; [fullYear] is [new Date().getFullYear()]. *)
Definition addBook (fullYear : Z) (st : bs_state) (d : book_input) : book * bs_state :=
  let b := mkBook (slug d.(in_title)) d.(in_title) d.(in_author) d.(in_genre)
             (match d.(in_description) with Some s => s | None => "" end)
             (or_default (parseInt (js_to_string d.(in_copies))) 1)
             (or_default (parseInt (js_to_string d.(in_copies))) 1)
             (match d.(in_isbn) with Some s => s | None => "" end)
             (or_default (parseInt (js_to_string d.(in_pages))) 0)
             (or_default (parseInt (js_to_string d.(in_year))) fullYear)
             (getGenreIcon d.(in_genre))
             (match d.(in_tags) with Some l => l | None => [] end) in
  (b, saveBooks (mkState (st.(books) ++ [b]) st.(reservations)
                         st.(saved_books) st.(saved_reservations))).

(** An entry of the [updates] object of [updateBook], in [Object.keys]
    order: a value for a book field, an [undefined] value, or a key the
    modelled book fields do not have (ignored, or set as an extra own
    property the operations never read). *)
Inductive field_value :=
| FId (s : string) | FTitle (s : string) | FAuthor (s : string)
| FGenre (s : string) | FDescription (s : string)
| FTotalCopies (n : Z) | FAvailableCopies (n : Z)
| FIsbn (s : string) | FPages (n : Z) | FYear (n : Z)
| FIcon (i : icon_val) | FTags (l : list string).

Inductive patch_entry :=
| PSet (v : field_value)
| PUndefined (key : string)
| POther (key : string).

Definition set_field (b : book) (v : field_value) : book :=
  let '(mkBook i t a g de tc ac is p y ic tg) := b in
  match v with
  | FId x => mkBook x t a g de tc ac is p y ic tg
  | FTitle x => mkBook i x a g de tc ac is p y ic tg
  | FAuthor x => mkBook i t x g de tc ac is p y ic tg
  | FGenre x => mkBook i t a x de tc ac is p y ic tg
  | FDescription x => mkBook i t a g x tc ac is p y ic tg
  | FTotalCopies x => mkBook i t a g de x ac is p y ic tg
  | FAvailableCopies x => mkBook i t a g de tc x is p y ic tg
  | FIsbn x => mkBook i t a g de tc ac x p y ic tg
  | FPages x => mkBook i t a g de tc ac is x y ic tg
  | FYear x => mkBook i t a g de tc ac is p x ic tg
  | FIcon x => mkBook i t a g de tc ac is p y x tg
  | FTags x => mkBook i t a g de tc ac is p y ic x
  end.

Definition apply_entry (b : book) (en : patch_entry) : book :=
  match en with
  | PSet v => set_field b v
  | PUndefined _ | POther _ => b
  end.

(** [updateBook(bookId, updates)] *)
Definition updateBook (st : bs_state) (bookId : string) (updates : list patch_entry)
    : option book * bs_state :=
  match getBookById st.(books) bookId with
  | None => (None, st)
  | Some b =>
      let b' := fold_left apply_entry updates b in
      (Some b', saveBooks (mkState (update_first (fun b => b.(b_id) =? bookId) (fun _ => b') st.(books))
                                   st.(reservations) st.(saved_books) st.(saved_reservations)))
  end.

(** The [forEach] of [deleteBook]: the [k]-th reservation is stamped with
    the time read at its own iteration, [clk k]. *)
Fixpoint cancel_for_book (clk : clock) (k : nat) (bookId : string)
    (rs : list reservation) : list reservation :=
  match rs with
  | [] => []
  | r :: rs' =>
      (if (r.(r_bookId) =? bookId) && status_eqb r.(r_status) Active
       then with_cancelled (clk k) r else r)
      :: cancel_for_book clk (S k) bookId rs'
  end.

(** [deleteBook(bookId)] *)
Definition deleteBook (clk : clock) (st : bs_state) (bookId : string) : bool * bs_state :=
  if negb (existsb (fun b => b.(b_id) =? bookId) st.(books)) then (false, st) else
  let rs := cancel_for_book clk 0 bookId st.(reservations) in
  let bs := remove_first (fun b => b.(b_id) =? bookId) st.(books) in
  (true, saveReservations (saveBooks (mkState bs rs st.(saved_books) st.(saved_reservations)))).

(** *** Search *)

(** The predicate of the first [filter] of [searchBooks]. *)
Definition matches_term (term : string) (b : book) : bool :=
  includes (toLowerCase b.(title)) term
  || includes (toLowerCase b.(author)) term
  || includes (toLowerCase b.(genre)) term
  || existsb (fun t => includes (toLowerCase t) term) b.(tags).

(** [searchBooks(query, genre)]; [None] is [null]/[undefined]. *)
Definition searchBooks (bs : list book) (query genre_in : option string) : list book :=
  let filtered := bs in
  let filtered :=
    match query with
    | Some q => if trim_nonempty q then filter (matches_term (toLowerCase q)) filtered
                else filtered
    | None => filtered
    end in
  match genre_in with
  | Some g =>
      if negb (g =? "") && negb (g =? "all")
      then filter (fun b => includes (toLowerCase b.(genre)) (toLowerCase g)) filtered
      else filtered
  | None => filtered
  end.

(** *** Queries *)

(** Insert [r] into a list sorted newest first, after the entries with
    the same [reservationDate]. *)
Fixpoint insert_by_date_desc (r : reservation) (l : list reservation) : list reservation :=
  match l with
  | [] => [r]
  | x :: l' =>
      if Z.ltb x.(reservationDate) r.(reservationDate) then r :: l
      else x :: insert_by_date_desc r l'
  end.

(** [.sort((a, b) => new Date(b.reservationDate) - new Date(a.reservationDate))]:
    [Array.prototype.sort] is stable, so its result is the stable sort
    newest first, computed here by insertion. *)
Definition sort_by_date_desc (l : list reservation) : list reservation :=
  fold_left (fun acc r => insert_by_date_desc r acc) l [].

(** JS falsiness of a user id: [null]/[undefined] ([None]) or [0]. *)
Definition falsy_id (v : option Z) : bool :=
  match v with None => true | Some n => Z.eqb n 0 end.

(** [getUserReservations(userId)] at time [now]. *)
Definition getUserReservations (now : Z) (e : env) (st : bs_state) (userId : option Z)
    : list reservation * env :=
  let '(uid, e1) :=
    if falsy_id userId && e.(auth_loaded) then
      let '(ou, s1) := Auth.getCurrentUser now e.(storage) in
      (option_map u_id ou, mkEnv true s1)
    else (userId, e) in
  if falsy_id uid then ([], e1)
  else (sort_by_date_desc
          (filter (fun r => match uid with Some n => Z.eqb r.(r_userId) n | None => false end)
                  st.(reservations)), e1).

(** [isBookAvailable(bookId)], as its truthiness ([undefined] when the
    book is missing). *)
Definition isBookAvailable (st : bs_state) (bookId : string) : bool :=
  match getBookById st.(books) bookId with
  | Some b => Z.ltb 0 b.(availableCopies)
  | None => false
  end.

(** The numeric fields of [getStats()] ([genreDistribution] is left out). *)
Definition sum_of (f : book -> Z) (bs : list book) : Z :=
  fold_left (fun s b => s + f b) bs 0.

Record stats := mkStats {
  s_totalBooks : Z;
  s_totalCopies : Z;
  s_availableCopies : Z;
  s_activeReservations : Z
}.

Definition getStats (st : bs_state) : stats :=
  mkStats (Z.of_nat (length st.(books)))
          (sum_of totalCopies st.(books))
          (sum_of availableCopies st.(books))
          (Z.of_nat (length (filter (fun r => status_eqb r.(r_status) Active) st.(reservations)))).

End BookSystem.

(* ------------------------------------------------------------------------ *)
(** ** Server (server.js) *)

(** JSON values as [express.json()] parses request bodies. *)
#[local] Set Warnings "-register-all".
Inductive json :=
| JNull
| JBool (b : bool)
| JNum (n : Z)
| JStr (s : string)
| JArr (l : list json)
| JObj (kv : list (string * json)).

Module Server.

(** [obj[key]]; [None] is [undefined]. *)
Fixpoint get_field (k : string) (kv : list (string * json)) : option json :=
  match kv with
  | [] => None
  | (k', v) :: kv' => if k' =? k then Some v else get_field k kv'
  end.

(** An object literal built from [entries] in order: a later key
    overwrites the value of an earlier one and keeps its position. *)
Fixpoint obj_set (k : string) (v : json) (kv : list (string * json)) : list (string * json) :=
  match kv with
  | [] => [(k, v)]
  | (k', v') :: kv' => if k' =? k then (k, v) :: kv' else (k', v') :: obj_set k v kv'
  end.

Definition obj_literal (entries : list (string * json)) : list (string * json) :=
  fold_left (fun acc '(k, v) => obj_set k v acc) entries [].

Definition field (v : json) (k : string) : option json :=
  match v with JObj kv => get_field k kv | _ => None end.

(** JS truthiness of a field value. *)
Definition truthy (v : option json) : bool :=
  match v with
  | None | Some JNull => false
  | Some (JBool b) => b
  | Some (JNum n) => negb (Z.eqb n 0)
  | Some (JStr s) => negb (s =? "")
  | Some (JArr _) | Some (JObj _) => true
  end.

Definition is_array (v : option json) : bool :=
  match v with Some (JArr _) => true | _ => false end.

(** *** Record store: [readJsonFile] and [writeJsonFile] *)

Inductive io_event :=
| Sleep (ms : Z)
| LogError (filename : string).

(** Outcome of the [fs.readFile] of one attempt. *)
Inductive read_outcome :=
| ReadFailed
| ReadData (data : string).

Section Store.

(** [JSON.parse]; [None] is a thrown [SyntaxError]. *)
Variable json_parse : string -> option json.

(** [readAttempt i]: what [fs.readFile] does at attempt [i]. *)
Variable readAttempt : nat -> read_outcome.

(** The [try] block of attempt [i]: the parsed value, or [None] when it
    throws. *)
Definition read_try (i : nat) : option json :=
  match readAttempt i with
  | ReadFailed => None
  | ReadData d => json_parse (if d =? "" then "[]" else d)
  end.

(** The loop [for (let i = 0; i < retries; i++)] of [readJsonFile] from
    index [i], with [k] iterations left; [None] is the [undefined] the
    function returns when the loop runs out without returning. *)
Fixpoint read_loop (filename : string) (retries i k : nat)
    : option json * list io_event :=
  match k with
  | O => (None, [])
  | S k' =>
      match read_try i with
      | Some v => (Some v, [])
      | None =>
          if Nat.eqb i (retries - 1) then (Some (JArr []), [LogError filename])
          else let '(r, ev) := read_loop filename retries (S i) k' in
               (r, Sleep 100 :: ev)
      end
  end.

Definition readJsonFile (filename : string) (retries : nat) : option json * list io_event :=
  read_loop filename retries 0 retries.

(** [writeAttempt i]: whether the [fs.writeFile] of attempt [i] succeeds
    (the backup [copyFile] before it has its errors caught and does not
    change the outcome). *)
Variable writeAttempt : nat -> bool.

Fixpoint write_loop (filename : string) (retries i k : nat)
    : option bool * list io_event :=
  match k with
  | O => (None, [])
  | S k' =>
      if writeAttempt i then (Some true, [])
      else if Nat.eqb i (retries - 1) then (Some false, [LogError filename])
      else let '(r, ev) := write_loop filename retries (S i) k' in
           (r, Sleep 100 :: ev)
  end.

Definition writeJsonFile (filename : string) (retries : nat) : option bool * list io_event :=
  write_loop filename retries 0 retries.

End Store.

(** *** HTTP routing *)

Inductive http_method := GET | POST | OPTIONS | PUT | DELETE.

Record request := mkReq {
  req_method : http_method;
  req_path : string;
  req_body : json
}.

Record response := mkResp {
  res_status : Z;
  res_body : json
}.

Definition message (s : string) : json := JObj [("message", JStr s)].

Definition method_eqb (a b : http_method) : bool :=
  match a, b with
  | GET, GET | POST, POST | OPTIONS, OPTIONS | PUT, PUT | DELETE, DELETE => true
  | _, _ => false
  end.

(** Express's default (non-strict, case-insensitive) path matching: the
    request path matches a route path up to case and one trailing slash. *)
Definition strip_trailing_slash (p : string) : string :=
  let n := String.length p in
  if (1 <? n)%nat && (String.substring (n - 1) 1 p =? "/")
  then String.substring 0 (n - 1) p else p.

Definition path_matches (route p : string) : bool :=
  toLowerCase route =? toLowerCase (strip_trailing_slash p).

(** [validateRequired(fields)]: the names of the falsy fields. *)
Definition missing_fields (fields : list string) (body : json) : list string :=
  filter (fun f => negb (truthy (field body f))) fields.

Fixpoint join (sep : string) (l : list string) : string :=
  match l with
  | [] => ""
  | [x] => x
  | x :: l' => x ++ sep ++ join sep l'
  end.

Definition validateRequired (fields : list string) (body : json)
    (next : unit -> response) : response :=
  match missing_fields fields body with
  | [] => next tt
  | ms => mkResp 400 (message ("Missing required fields: " ++ join ", " ms))
  end.

Section Routes.

(** What the handlers' awaited store calls return ([readJsonFile] never
    throws and [writeJsonFile] returns its boolean), the static files
    under the server directory, [Date.now()], the process uptime, the
    base64 login token, and whether an order's [createdAt] is today. *)
Variable read_coll : string -> json.
Variable write_ok : string -> json -> bool.
Variable static_file : string -> option string.
Variable now : Z.
Variable uptime : Z.
Variable token_of : Z -> Z -> string.
Variable is_today : json -> bool.

Definition as_list (v : json) : list json :=
  match v with JArr l => l | _ => [] end.

Definition handle_health (_ : request) : response :=
  mkResp 200 (JObj [("status", JStr "OK"); ("timestamp", JNum now); ("uptime", JNum uptime)]).

Definition handle_login (req : request) : response :=
  validateRequired ["email"; "password"] req.(req_body) (fun _ =>
    let email := match field req.(req_body) "email" with Some v => v | None => JNull end in
    let users := as_list (read_coll "users.json") in
    let found := find (fun u => match field u "email", email with
                                | Some (JStr a), JStr b => a =? b
                                | _, _ => false end) users in
    let u := match found with
             | Some u => u
             | None =>
                 let ty := match field req.(req_body) "userType" with
                           | Some v => if truthy (Some v) then v else JStr "customer"
                           | None => JStr "customer" end in
                 let name := match email with
                             | JStr e => JStr (split_at_first "@" e) | _ => JNull end in
                 JObj [("id", JNum now); ("email", email); ("name", name);
                       ("type", ty); ("createdAt", JNum now)]
             end in
    let _ := match found with
             | Some _ => true
             | None => write_ok "users.json" (JArr (app users [u]))
             end in
    let uid := match field u "id" with Some (JNum n) => n | _ => 0 end in
    let pick k := match field u k with Some v => v | None => JNull end in
    mkResp 200 (JObj [("token", JStr (token_of uid now));
                      ("user", JObj [("id", pick "id"); ("email", pick "email");
                                     ("name", pick "name"); ("type", pick "type")])])).

Definition handle_get_books (_ : request) : response :=
  mkResp 200 (read_coll "books.json").

Definition handle_post_books (req : request) : response :=
  validateRequired ["title"; "author"] req.(req_body) (fun _ =>
    let kv := match req.(req_body) with JObj kv => kv | _ => [] end in
    let id := match field req.(req_body) "id" with
              | Some v => if truthy (Some v) then v else JStr ("book-" ++ to_dec now)
              | None => JStr ("book-" ++ to_dec now) end in
    let newBook := JObj (obj_literal (app (("id", id) :: kv) [("createdAt", JNum now)])) in
    let bs := app (as_list (read_coll "books.json")) [newBook] in
    if write_ok "books.json" (JArr bs) then mkResp 201 newBook
    else mkResp 500 (message "Failed to save book")).

Definition handle_books_sync (req : request) : response :=
  let books := field req.(req_body) "books" in
  if negb (is_array books) then mkResp 400 (message "Books must be an array")
  else if write_ok "books.json" (match books with Some v => v | None => JNull end)
  then mkResp 200 (message "Books synced successfully")
  else mkResp 500 (message "Failed to sync books").

Definition handle_post_orders (req : request) : response :=
  validateRequired ["items"; "total"] req.(req_body) (fun _ =>
    let kv := match req.(req_body) with JObj kv => kv | _ => [] end in
    let id := match field req.(req_body) "id" with
              | Some v => if truthy (Some v) then v else JStr ("ORD-" ++ to_dec now)
              | None => JStr ("ORD-" ++ to_dec now) end in
    let newOrder := JObj (obj_literal (app kv [("id", id); ("createdAt", JNum now)])) in
    let os := app (as_list (read_coll "orders.json")) [newOrder] in
    if write_ok "orders.json" (JArr os) then mkResp 201 (JObj [("order", newOrder)])
    else mkResp 500 (message "Failed to save order")).

Definition handle_get_orders (_ : request) : response :=
  mkResp 200 (read_coll "orders.json").

Definition handle_stats (_ : request) : response :=
  let orders := as_list (read_coll "orders.json") in
  let today := filter is_today orders in
  let total_of o := match field o "total" with Some (JNum n) => n | _ => 0 end in
  mkResp 200 (JObj [("totalOrders", JNum (Z.of_nat (length orders)));
                    ("todayOrders", JNum (Z.of_nat (length today)));
                    ("todaySales", JNum (fold_left (fun s o => s + total_of o) today 0));
                    ("totalBooks", JNum (Z.of_nat (length (as_list (read_coll "books.json")))));
                    ("totalUsers", JNum (Z.of_nat (length (as_list (read_coll "users.json")))))]).

(** The routes registered with [app.get]/[app.post], in order. *)
Definition routes : list (http_method * string * (request -> response)) :=
  [(GET, "/health", handle_health);
   (POST, "/api/auth/login", handle_login);
   (GET, "/api/books", handle_get_books);
   (POST, "/api/books", handle_post_books);
   (POST, "/api/books/sync", handle_books_sync);
   (POST, "/api/orders", handle_post_orders);
   (GET, "/api/orders", handle_get_orders);
   (GET, "/api/dashboard/stats", handle_stats)].

Fixpoint dispatch (rs : list (http_method * string * (request -> response)))
    (req : request) : response :=
  match rs with
  | [] => mkResp 404 (message "Endpoint not found")
  | (m, p, h) :: rs' =>
      if method_eqb m req.(req_method) && path_matches p req.(req_path)
      then h req else dispatch rs' req
  end.

(** The middleware stack: [cors] answers preflight [OPTIONS] requests with
    204, [express.static] serves a file for [GET], then the routes, then
    the 404 handler. *)
Definition app (req : request) : response :=
  match req.(req_method) with
  | OPTIONS => mkResp 204 (JStr "")
  | GET =>
      match static_file req.(req_path) with
      | Some contents => mkResp 200 (JStr contents)
      | None => dispatch routes req
      end
  | _ => dispatch routes req
  end.

End Routes.

End Server.

(** [syncWithServer()]: the two requests it sends (their responses are
    not inspected; only a network error is caught and logged). *)
Definition syncWithServer_requests (books_json reservations_json : json)
    : list Server.request :=
  [Server.mkReq Server.POST "/api/books/sync" (JObj [("books", books_json)]);
   Server.mkReq Server.POST "/api/reservations/sync" (JObj [("reservations", reservations_json)])].

(* ======================================================================== *)
(** * Properties *)

(* ------------------------------------------------------------------------ *)
(** ** Lemmas on the string helpers *)

Module StringFacts.

Lemma startsWith_spec (s t : string) :
  startsWith s t = true <-> exists suf, s = t ++ suf.
Proof.
  revert s; induction t as [|c t IH]; intros s; simpl.
  - split; [intros _; now exists s | auto].
  - destruct s as [|d s].
    + split; [discriminate | intros [suf H]; discriminate].
    + rewrite andb_true_iff, IH. split.
      * intros [Hc [suf Hs]]. apply Ascii.eqb_eq in Hc. subst. now exists suf.
      * intros [suf H]. injection H as -> ->. split; [apply Ascii.eqb_refl | now exists suf].
Qed.

Lemma includes_spec (s t : string) :
  includes s t = true <-> exists pre suf, s = pre ++ t ++ suf.
Proof.
  induction s as [|c s IH]; simpl; rewrite orb_true_iff, startsWith_spec.
  - split.
    + intros [[suf H] | H]; [exists ""%string, suf; exact H | discriminate].
    + intros [pre [suf H]]. left. exists suf. destruct pre; [exact H | discriminate].
  - rewrite IH. split.
    + intros [[suf H] | [pre [suf H]]].
      * exists ""%string, suf. exact H.
      * exists (String c pre), suf. simpl. now rewrite H.
    + intros [pre [suf H]]. destruct pre as [|d pre].
      * left. exists suf. exact H.
      * right. injection H as _ H. exists pre, suf. exact H.
Qed.

Lemma trim_nonempty_false (s : string) :
  trim_nonempty s = false <->
  Forall (fun c => is_space c = true) (list_ascii_of_string s).
Proof.
  induction s as [|c s IH]; simpl.
  - split; auto.
  - rewrite orb_false_iff, IH, negb_false_iff. split.
    + intros [H1 H2]. now constructor.
    + intros H. inversion H; subst. auto.
Qed.

End StringFacts.

(* ------------------------------------------------------------------------ *)
(** ** Lemmas on in-place updates *)

Module ListFacts.

Lemma update_first_none {A} (p : A -> bool) (f : A -> A) (l : list A) :
  find p l = None -> update_first p f l = l.
Proof.
  induction l as [|x l IH]; simpl; [reflexivity|].
  destruct (p x); [discriminate|]. intros H. now rewrite IH.
Qed.

Lemma find_update_first {A} (p : A -> bool) (f : A -> A) (l : list A) :
  (forall x, p x = true -> p (f x) = true) ->
  find p (update_first p f l) = option_map f (find p l).
Proof.
  intros Hf. induction l as [|x l IH]; simpl; [reflexivity|].
  destruct (p x) eqn:E; simpl.
  - now rewrite (Hf x E).
  - now rewrite E.
Qed.

Lemma forallb_update_first {A} (ok p : A -> bool) (f : A -> A) (l : list A) :
  forallb ok l = true ->
  (forall x, find p l = Some x -> ok (f x) = true) ->
  forallb ok (update_first p f l) = true.
Proof.
  induction l as [|x l IH]; simpl; [auto|].
  rewrite andb_true_iff. intros [Hx Hl] Hf.
  destruct (p x); simpl; rewrite andb_true_iff; split; auto.
Qed.

Lemma forallb_remove_first {A} (ok p : A -> bool) (l : list A) :
  forallb ok l = true -> forallb ok (remove_first p l) = true.
Proof.
  induction l as [|x l IH]; simpl; [auto|].
  rewrite andb_true_iff. intros [Hx Hl].
  destruct (p x); simpl; [auto | rewrite Hx; auto].
Qed.

End ListFacts.

(* ------------------------------------------------------------------------ *)
(** ** Record store retries (C9) *)

(** C9: when all 3 attempts fail, [readJsonFile] returns the empty array
    and [writeJsonFile] returns [false], neither throws, and a 100 ms wait
    precedes the second and the third attempt. *)
Theorem store_exhausted_retries
    (json_parse : string -> option json) (readAttempt : nat -> Server.read_outcome)
    (writeAttempt : nat -> bool) (filename : string)
    (Hread : forall i, (i < 3)%nat -> Server.read_try json_parse readAttempt i = None)
    (Hwrite : forall i, (i < 3)%nat -> writeAttempt i = false) :
  Server.readJsonFile json_parse readAttempt filename 3
    = (Some (JArr []), [Server.Sleep 100; Server.Sleep 100; Server.LogError filename]) /\
  Server.writeJsonFile writeAttempt filename 3
    = (Some false, [Server.Sleep 100; Server.Sleep 100; Server.LogError filename]).
Proof.
  unfold Server.readJsonFile, Server.writeJsonFile; simpl.
  rewrite !Hread, !Hwrite by lia. split; reflexivity.
Qed.

Lemma store_exhausted_retries_witness :
  Server.readJsonFile (fun _ => None) (fun _ => Server.ReadFailed) "books.json" 3
    = (Some (JArr []), [Server.Sleep 100; Server.Sleep 100; Server.LogError "books.json"]) /\
  Server.writeJsonFile (fun _ => false) "books.json" 3
    = (Some false, [Server.Sleep 100; Server.Sleep 100; Server.LogError "books.json"]).
Proof.
  apply (store_exhausted_retries (fun _ => None) (fun _ => Server.ReadFailed) (fun _ => false)).
  - intros i _. reflexivity.
  - intros i _. reflexivity.
Defined.

(* ------------------------------------------------------------------------ *)
(** ** Routing of the reservation sync (C5) *)

(** C5: the client's [syncWithServer] sends [POST /api/reservations/sync]
    with a [reservations] array, and the server has no route for it: the
    request reaches the 404 handler whatever the store does, while the
    sibling [POST /api/books/sync] is answered 200. *)
Theorem reservations_sync_unrouted
    (read_coll : string -> json) (write_ok : string -> json -> bool)
    (static_file : string -> option string) (now uptime : Z)
    (token_of : Z -> Z -> string) (is_today : json -> bool)
    (bs rs : list json) :
  In (Server.mkReq Server.POST "/api/reservations/sync" (JObj [("reservations", JArr rs)]))
     (syncWithServer_requests (JArr bs) (JArr rs)) /\
  Server.app read_coll write_ok static_file now uptime token_of is_today
    (Server.mkReq Server.POST "/api/reservations/sync" (JObj [("reservations", JArr rs)]))
    = Server.mkResp 404 (Server.message "Endpoint not found") /\
  (write_ok "books.json" (JArr bs) = true ->
   Server.app read_coll write_ok static_file now uptime token_of is_today
     (Server.mkReq Server.POST "/api/books/sync" (JObj [("books", JArr bs)]))
   = Server.mkResp 200 (Server.message "Books synced successfully")).
Proof.
  split; [simpl; auto|]. split; [reflexivity|].
  intros Hw. cbn. now rewrite Hw.
Qed.

Lemma reservations_sync_unrouted_witness :
  Server.app (fun _ => JArr []) (fun _ _ => true) (fun _ => None) 0 0
    (fun _ _ => "t") (fun _ => false)
    (Server.mkReq Server.POST "/api/books/sync" (JObj [("books", JArr [])]))
  = Server.mkResp 200 (Server.message "Books synced successfully").
Proof.
  apply (reservations_sync_unrouted (fun _ => JArr []) (fun _ _ => true) (fun _ => None) 0 0
           (fun _ _ => "t") (fun _ => false) [] []).
  reflexivity.
Defined.

(* ------------------------------------------------------------------------ *)
(** ** Search (C8) *)

Module Search.
Import BookSystem.

(** The spec's words: [s] contains [q] as a case-insensitive substring. *)
Definition contains_ci (s q : string) : Prop :=
  exists pre suf, toLowerCase s = pre ++ toLowerCase q ++ suf.

(** An empty or white-space-only query. *)
Definition blank (s : string) : Prop :=
  Forall (fun c => is_space c = true) (list_ascii_of_string s).

Definition query_ok (q : option string) (b : book) : Prop :=
  match q with
  | None => True
  | Some s =>
      blank s \/ contains_ci b.(title) s \/ contains_ci b.(author) s
      \/ contains_ci b.(genre) s \/ exists t, In t b.(tags) /\ contains_ci t s
  end.

Definition genre_ok (g : option string) (b : book) : Prop :=
  match g with
  | None => True
  | Some g => g = "all" \/ contains_ci b.(genre) g
  end.

Lemma filter_filter_andb {A} (p q : A -> bool) (l : list A) :
  filter q (filter p l) = filter (fun x => p x && q x) l.
Proof.
  induction l as [|x l IH]; simpl; [reflexivity|].
  destruct (p x); simpl; [destruct (q x); simpl; now rewrite IH | exact IH].
Qed.

Lemma filter_const_true {A} (l : list A) : filter (fun _ => true) l = l.
Proof. induction l as [|x l IH]; simpl; [reflexivity | now rewrite IH]. Qed.

(** The two predicates [searchBooks] filters with (each [true] when its
    filter is skipped). *)
Definition query_keep (q : option string) (b : book) : bool :=
  match q with
  | Some s => if trim_nonempty s then matches_term (toLowerCase s) b else true
  | None => true
  end.

Definition genre_keep (g : option string) (b : book) : bool :=
  match g with
  | Some g => if negb (g =? "") && negb (g =? "all")
              then includes (toLowerCase b.(genre)) (toLowerCase g) else true
  | None => true
  end.

Lemma searchBooks_filters (bs : list book) (q g : option string) :
  searchBooks bs q g = filter (genre_keep g) (filter (query_keep q) bs).
Proof.
  unfold searchBooks, query_keep, genre_keep.
  destruct q as [q|]; [destruct (trim_nonempty q)|];
  destruct g as [g|]; try destruct (negb (g =? "") && negb (g =? "all"));
  rewrite ?filter_const_true; reflexivity.
Qed.

Lemma matches_term_spec (s : string) (b : book) :
  matches_term (toLowerCase s) b = true <->
  contains_ci b.(title) s \/ contains_ci b.(author) s
  \/ contains_ci b.(genre) s \/ exists t, In t b.(tags) /\ contains_ci t s.
Proof.
  unfold matches_term, contains_ci.
  rewrite !orb_true_iff, !StringFacts.includes_spec, existsb_exists.
  setoid_rewrite StringFacts.includes_spec. tauto.
Qed.

Lemma query_keep_spec (q : option string) (b : book) :
  query_keep q b = true <-> query_ok q b.
Proof.
  destruct q as [s|]; simpl; [|tauto].
  destruct (trim_nonempty s) eqn:E.
  - rewrite matches_term_spec. split; [tauto|].
    intros [Hb | H]; [|exact H].
    apply StringFacts.trim_nonempty_false in Hb. congruence.
  - split; [intros _; left; now apply StringFacts.trim_nonempty_false | auto].
Qed.

Lemma genre_keep_spec (g : option string) (b : book) :
  genre_keep g b = true <-> genre_ok g b.
Proof.
  destruct g as [g|]; simpl; [|tauto].
  destruct (String.eqb_spec g "") as [->|Hne]; simpl.
  - split; [intros _; right; exists ""%string, (toLowerCase b.(genre)); reflexivity | auto].
  - destruct (String.eqb_spec g "all") as [->|Hna]; simpl.
    + tauto.
    + rewrite StringFacts.includes_spec. unfold contains_ci. split; [auto|].
      intros [H|H]; [contradiction|exact H].
Qed.

End Search.

(** C8: [searchBooks bs query genre] is the subsequence of [bs] (in order)
    of the books that match the query (blank query: all; otherwise a
    case-insensitive substring of title, author, genre or a tag) and the
    genre filter (absent or ["all"]: all; otherwise a case-insensitive
    substring of the genre).  [searchBooks] returns a new list and does not
    touch the catalogue. *)
Theorem searchBooks_spec (bs : list book) (query genre_in : option string) :
  exists keep : book -> bool,
    BookSystem.searchBooks bs query genre_in = filter keep bs /\
    forall b, keep b = true <-> Search.query_ok query b /\ Search.genre_ok genre_in b.
Proof.
  exists (fun b => Search.query_keep query b && Search.genre_keep genre_in b). split.
  - rewrite Search.searchBooks_filters. apply Search.filter_filter_andb.
  - intros b. rewrite andb_true_iff, Search.query_keep_spec, Search.genre_keep_spec.
    reflexivity.
Qed.

(* ------------------------------------------------------------------------ *)
(** ** Reserving (C3, C4) *)

Module Reserve.
Import BookSystem.

(** The user [isAuthenticated()]/[getCurrentUser()] see at time [now]. *)
Definition caller (now : Z) (e : env) : option user :=
  if e.(auth_loaded) then fst (Auth.getCurrentUser now e.(storage)) else None.

Lemma getCurrentUser_some_same (now : Z) (s s' : session) (u : user) :
  Auth.getCurrentUser now s = (Some u, s') -> s' = s.
Proof.
  unfold Auth.getCurrentUser.
  destruct (currentUser s); [|discriminate].
  destruct (authExpiry s) as [ex|]; [destruct (Z.ltb ex now)|]; congruence.
Qed.

Lemma getCurrentUser_some_user (now : Z) (s s' : session) (u : user) :
  Auth.getCurrentUser now s = (Some u, s') -> currentUser s = Some u.
Proof.
  unfold Auth.getCurrentUser.
  destruct (currentUser s); [|discriminate].
  destruct (authExpiry s) as [ex|]; [destruct (Z.ltb ex now)|]; congruence.
Qed.

End Reserve.

(** C4: [reserveBook] fails with the login message when the caller is not
    authenticated, then with "Book not found", then with "No copies
    available", then with the duplicate message, in that order; every
    failing call leaves books and reservations as they were. *)
Theorem reserveBook_failures (clk : clock) (e : env) (st : bs_state)
    (bookId : string) (notes_in : option string) :
  let '(r, _, st') := BookSystem.reserveBook clk e st bookId notes_in in
  (BookSystem.reserve_success r = false -> st' = st) /\
  (Reserve.caller (clk 0%nat) e = None -> r = BookSystem.ReserveFail BookSystem.msg_login) /\
  (forall u, Reserve.caller (clk 0%nat) e = Some u ->
     (BookSystem.getBookById st.(books) bookId = None ->
        r = BookSystem.ReserveFail BookSystem.msg_book_not_found) /\
     (forall b, BookSystem.getBookById st.(books) bookId = Some b ->
        b.(availableCopies) <= 0 -> r = BookSystem.ReserveFail BookSystem.msg_no_copies) /\
     (forall b, BookSystem.getBookById st.(books) bookId = Some b ->
        0 < b.(availableCopies) ->
        Reserve.caller (clk 1%nat) e = Some u ->
        (exists x, In x st.(reservations) /\ x.(r_bookId) = bookId /\
                   x.(r_userId) = u.(u_id) /\ x.(r_status) = Active) ->
        r = BookSystem.ReserveFail BookSystem.msg_duplicate)).
Proof.
  unfold BookSystem.reserveBook, Reserve.caller, Auth.isAuthenticated.
  destruct e as [[|] s]; simpl; [|repeat split; intros; discriminate].
  destruct (Auth.getCurrentUser (clk 0%nat) s) as [[u0|] s1] eqn:G0; simpl;
    [|repeat split; intros; discriminate].
  rewrite (Reserve.getCurrentUser_some_same _ _ _ _ G0) in *.
  destruct (Auth.getCurrentUser (clk 1%nat) s) as [[u1|] s2] eqn:G1; simpl;
  destruct (BookSystem.getBookById (books st) bookId) as [b|] eqn:Hb;
  try destruct (Z.leb_spec (availableCopies b) 0) as [Hle|Hlt];
  try destruct (find _ (reservations st)) as [x|] eqn:Hf;
  repeat split; intros;
  repeat match goal with H : Some _ = Some _ |- _ => injection H as H; subst end;
  try discriminate; try congruence; try lia.
  all: match goal with
       | Hf : find _ _ = None, Hx : exists x, _ |- _ =>
           destruct Hx as [x [Hin [Hbid [Huid Hst]]]];
           pose proof (find_none _ _ Hf x Hin) as Hfx; simpl in Hfx;
           rewrite Hbid, Huid, Hst, String.eqb_refl, Z.eqb_refl in Hfx; discriminate
       end.
Qed.

(** Concrete states used by the witnesses and counterexamples. *)
Module Examples.
Import BookSystem.

Definition reader : user := mkUser 7 "reader@example.com" "reader" "customer".

Definition env_reader : env :=
  mkEnv true (mkSession (Some "demo-token-1") (Some reader) (Some "customer") None).

Definition dune (avail : Z) : book :=
  mkBook "dune" "Dune" "Frank Herbert" "Science Fiction" "" 2 avail "" 412 1965
         (IconName "fas fa-rocket") ["space"].

Definition res_dune (st : status) : reservation :=
  mkRes "RES-1" "dune" 7 "reader@example.com" "reader" "Dune" "Frank Herbert"
        0 seven_days st None "".

(** One of two copies of "dune" reserved by [reader]. *)
Definition st_reserved : bs_state := mkState [dune 1] [res_dune Active] [] [].

(** The reservation already cancelled; both copies available. *)
Definition st_cancelled : bs_state := mkState [dune 2] [res_dune Cancelled] [] [].

(** "dune" with a free copy and no reservation. *)
Definition st_free : bs_state := mkState [dune 2] [] [] [].

(** A clock advancing by one millisecond per program point. *)
Definition clk_tick : clock := fun k => 1704067200000 + Z.of_nat k.

End Examples.

Lemma reserveBook_failures_witness :
  fst (fst (BookSystem.reserveBook Examples.clk_tick Examples.env_reader
              Examples.st_reserved "dune" None))
  = BookSystem.ReserveFail BookSystem.msg_duplicate.
Proof.
  pose proof (reserveBook_failures Examples.clk_tick Examples.env_reader
                Examples.st_reserved "dune" None) as H.
  simpl in H |- *. destruct H as [_ [_ H]].
  apply (proj2 (proj2 (H Examples.reader eq_refl)) (Examples.dune 1) eq_refl);
    [reflexivity | reflexivity |].
  exists (Examples.res_dune Active). simpl. auto.
Defined.

(** C3 (evaluation at the failing input): [reserveBook] reads the clock
    once for [reservationDate] and again for [expiryDate]; when the clock
    ticks between the two reads, the stored [expiryDate] is one millisecond
    past [reservationDate + 7 days].  The other effects are as claimed: one
    active reservation appended, the copy count decremented, the id and
    [expiryDate] returned. *)
Theorem reserveBook_expiry_two_clock_reads :
  let '(r, _, st') := BookSystem.reserveBook Examples.clk_tick Examples.env_reader
                        Examples.st_free "dune" None in
  exists res,
    st'.(reservations) = [res] /\
    res.(r_status) = Active /\
    res.(expiryDate) = res.(reservationDate) + BookSystem.seven_days + 1 /\
    res.(expiryDate) <> res.(reservationDate) + BookSystem.seven_days /\
    map availableCopies st'.(books) = [1] /\
    r = BookSystem.ReserveOk res.(r_id) res.(expiryDate).
Proof.
  vm_compute. eexists. repeat split; try reflexivity. discriminate.
Qed.

(* ------------------------------------------------------------------------ *)
(** ** Cancelling (C2, C10) *)

Module Cancel.
Import BookSystem.

(** The effect of [cancelReservation] on a found reservation owned by the
    caller: no status is checked. *)
Lemma cancel_owned (clk : clock) (e : env) (st : bs_state) (rid : string)
    (r : reservation) (u : user) :
  find (fun x => r_id x =? rid) st.(reservations) = Some r ->
  Reserve.caller (clk 0%nat) e = Some u ->
  r.(r_userId) = u.(u_id) ->
  exists e', cancelReservation clk e st rid =
    (CancelOk, e',
     saveReservations (saveBooks (mkState
       (update_first (fun b => b_id b =? r_bookId r)
          (fun b => with_available (availableCopies b + 1) b) st.(books))
       (update_first (fun x => r_id x =? rid) (with_cancelled (clk 1%nat)) st.(reservations))
       st.(saved_books) st.(saved_reservations)))).
Proof.
  intros Hf Hc Ho. unfold cancelReservation, Reserve.caller in *. rewrite Hf.
  destruct e as [[|] s]; simpl in *; [|discriminate].
  destruct (Auth.getCurrentUser (clk 0%nat) s) as [[u'|] s1]; simpl in Hc; [|discriminate].
  injection Hc as ->. rewrite Ho, Z.eqb_refl. simpl. eexists. reflexivity.
Qed.

Lemma find_cancelled (clk : clock) (st : bs_state) (rid : string) (r : reservation) :
  find (fun x => r_id x =? rid) st.(reservations) = Some r ->
  find (fun x => r_id x =? rid)
    (update_first (fun x => r_id x =? rid) (with_cancelled (clk 1%nat)) st.(reservations))
  = Some (with_cancelled (clk 1%nat) r).
Proof.
  intros Hf. rewrite ListFacts.find_update_first; [now rewrite Hf|].
  intros x Hx. exact Hx.
Qed.

End Cancel.

(** C2 (as the code has it): cancelling an existing reservation owned by
    the caller always succeeds, whatever its status: the reservation
    becomes [cancelled] with [cancelledDate] stamped, and the first book
    with its [bookId], if any, gets one more available copy. *)
Theorem cancelReservation_unguarded (clk : clock) (e : env) (st : bs_state)
    (rid : string) (r : reservation) (u : user)
    (Hfind : find (fun x => r_id x =? rid) st.(reservations) = Some r)
    (Hcaller : Reserve.caller (clk 0%nat) e = Some u)
    (Hown : r.(r_userId) = u.(u_id)) :
  let '(res, _, st') := BookSystem.cancelReservation clk e st rid in
  res = BookSystem.CancelOk /\
  find (fun x => r_id x =? rid) st'.(reservations)
    = Some (BookSystem.with_cancelled (clk 1%nat) r) /\
  BookSystem.getBookById st'.(books) r.(r_bookId)
    = option_map (fun b => BookSystem.with_available (availableCopies b + 1) b)
                 (BookSystem.getBookById st.(books) r.(r_bookId)).
Proof.
  destruct (Cancel.cancel_owned clk e st rid r u Hfind Hcaller Hown) as [e' ->].
  simpl. split; [reflexivity|]. split; [now apply Cancel.find_cancelled|].
  unfold BookSystem.getBookById.
  apply ListFacts.find_update_first. intros b Hb. exact Hb.
Qed.

Lemma cancelReservation_unguarded_witness :
  fst (fst (BookSystem.cancelReservation Examples.clk_tick Examples.env_reader
              Examples.st_cancelled "RES-1")) = BookSystem.CancelOk.
Proof.
  pose proof (cancelReservation_unguarded Examples.clk_tick Examples.env_reader
                Examples.st_cancelled "RES-1" (Examples.res_dune Cancelled)
                Examples.reader eq_refl eq_refl eq_refl) as H.
  destruct (BookSystem.cancelReservation Examples.clk_tick Examples.env_reader
              Examples.st_cancelled "RES-1") as [[res e'] st'].
  exact (proj1 H).
Defined.

(** C2 fails: cancelling the already-cancelled reservation of
    [st_cancelled] is not rejected, and raises the available copies of
    "dune" from 2 to 3, above its 2 total copies. *)
Lemma cancel_already_cancelled_counterexample :
  (Examples.res_dune Cancelled).(r_status) = Cancelled /\
  let '(res, _, st') := BookSystem.cancelReservation Examples.clk_tick Examples.env_reader
                          Examples.st_cancelled "RES-1" in
  res = BookSystem.CancelOk /\ map availableCopies st'.(books) = [3] /\
  map totalCopies st'.(books) = [2].
Proof. vm_compute. repeat split. Qed.

(** C10: cancelling an owned reservation whose book is no longer in the
    catalogue succeeds, marks the reservation cancelled with its
    [cancelledDate], and leaves every book as it was. *)
Theorem cancelReservation_missing_book (clk : clock) (e : env) (st : bs_state)
    (rid : string) (r : reservation) (u : user)
    (Hfind : find (fun x => r_id x =? rid) st.(reservations) = Some r)
    (Hcaller : Reserve.caller (clk 0%nat) e = Some u)
    (Hown : r.(r_userId) = u.(u_id))
    (Hgone : BookSystem.getBookById st.(books) r.(r_bookId) = None) :
  let '(res, _, st') := BookSystem.cancelReservation clk e st rid in
  res = BookSystem.CancelOk /\
  find (fun x => r_id x =? rid) st'.(reservations)
    = Some (BookSystem.with_cancelled (clk 1%nat) r) /\
  (BookSystem.with_cancelled (clk 1%nat) r).(r_status) = Cancelled /\
  (BookSystem.with_cancelled (clk 1%nat) r).(cancelledDate) = Some (clk 1%nat) /\
  st'.(books) = st.(books).
Proof.
  destruct (Cancel.cancel_owned clk e st rid r u Hfind Hcaller Hown) as [e' ->].
  simpl. split; [reflexivity|]. split; [now apply Cancel.find_cancelled|].
  split; [reflexivity|]. split; [reflexivity|].
  apply ListFacts.update_first_none. exact Hgone.
Qed.

Lemma cancelReservation_missing_book_witness :
  snd (BookSystem.cancelReservation Examples.clk_tick Examples.env_reader
         (mkState [] [Examples.res_dune Active] [] []) "RES-1")
  = mkState [] [BookSystem.with_cancelled (Examples.clk_tick 1%nat) (Examples.res_dune Active)]
            [] [BookSystem.with_cancelled (Examples.clk_tick 1%nat) (Examples.res_dune Active)].
Proof.
  pose proof (cancelReservation_missing_book Examples.clk_tick Examples.env_reader
                (mkState [] [Examples.res_dune Active] [] []) "RES-1"
                (Examples.res_dune Active) Examples.reader eq_refl eq_refl eq_refl eq_refl) as H.
  vm_compute in H |- *. reflexivity.
Defined.

(* ------------------------------------------------------------------------ *)
(** ** The copy-count invariant over operation sequences (C1) *)

Module Ops.
Import BookSystem.

(** The catalogue and reservation operations a client can run. *)
Inductive op :=
| OpReserve (clk : clock) (bookId : string) (notes_in : option string)
| OpCancel (clk : clock) (reservationId : string)
| OpAdd (fullYear : Z) (d : book_input)
| OpUpdate (bookId : string) (updates : list patch_entry)
| OpDelete (clk : clock) (bookId : string).

Definition run_op (es : env * bs_state) (o : op) : env * bs_state :=
  let '(e, st) := es in
  match o with
  | OpReserve clk id n => let '(_, e', st') := reserveBook clk e st id n in (e', st')
  | OpCancel clk rid => let '(_, e', st') := cancelReservation clk e st rid in (e', st')
  | OpAdd y d => (e, snd (addBook y st d))
  | OpUpdate id ups => (e, snd (updateBook st id ups))
  | OpDelete clk id => (e, snd (deleteBook clk st id))
  end.

Definition run_ops (os : list op) (es : env * bs_state) : env * bs_state :=
  fold_left run_op os es.

(** [0 <= availableCopies <= totalCopies] for every book. *)
Definition book_ok (b : book) : bool :=
  Z.leb 0 b.(availableCopies) && Z.leb b.(availableCopies) b.(totalCopies).

Definition copies_invariant (st : bs_state) : bool := forallb book_ok st.(books).

Definition touches_counts (en : patch_entry) : bool :=
  match en with
  | PSet (FTotalCopies _) | PSet (FAvailableCopies _) => true
  | _ => false
  end.

(** The operations that keep the invariant: reserve, delete, add whose
    copies value is not negative, update that sets neither count. *)
Definition preserving_op (o : op) : bool :=
  match o with
  | OpReserve _ _ _ | OpDelete _ _ => true
  | OpAdd _ d => Z.leb 0 (copies_of d)
  | OpUpdate _ ups => negb (existsb touches_counts ups)
  | OpCancel _ _ => false
  end.

Lemma ok_of_find (bs : list book) (id : string) (b : book) :
  forallb book_ok bs = true -> getBookById bs id = Some b -> book_ok b = true.
Proof.
  intros Hall Hf. apply find_some in Hf as [Hin _].
  rewrite forallb_forall in Hall. auto.
Qed.

Lemma reserve_preserves (clk : clock) (e : env) (st : bs_state) (id : string)
    (n : option string) :
  copies_invariant st = true ->
  copies_invariant (snd (reserveBook clk e st id n)) = true.
Proof.
  intros Hinv. unfold reserveBook, Auth.isAuthenticated.
  destruct (auth_loaded e); [|exact Hinv]. simpl.
  destruct (Auth.getCurrentUser (clk 0%nat) (storage e)) as [[u0|] s1]; simpl; [|exact Hinv].
  destruct (Auth.getCurrentUser (clk 1%nat) s1) as [[u1|] s2];
  destruct (getBookById (books st) id) as [b|] eqn:Hb; simpl; try exact Hinv;
  destruct (Z.leb_spec (availableCopies b) 0); simpl; try exact Hinv.
  destruct (find _ (reservations st)); simpl; [exact Hinv|].
  unfold copies_invariant; simpl.
  apply ListFacts.forallb_update_first; [exact Hinv|].
  intros x Hx. change (getBookById (books st) id = Some x) in Hx.
  rewrite Hb in Hx. injection Hx as <-.
  pose proof (ok_of_find _ _ _ Hinv Hb) as Hok. unfold book_ok in *. simpl.
  rewrite andb_true_iff, !Z.leb_le in *. lia.
Qed.

Lemma delete_preserves (clk : clock) (st : bs_state) (id : string) :
  copies_invariant st = true -> copies_invariant (snd (deleteBook clk st id)) = true.
Proof.
  intros Hinv. unfold deleteBook.
  destruct (negb _); [exact Hinv|].
  apply ListFacts.forallb_remove_first. exact Hinv.
Qed.

Lemma add_preserves (y : Z) (st : bs_state) (d : book_input) :
  Z.leb 0 (copies_of d) = true ->
  copies_invariant st = true -> copies_invariant (snd (addBook y st d)) = true.
Proof.
  intros Hc Hinv. unfold copies_invariant, addBook in *; simpl.
  rewrite forallb_app, Hinv. simpl. unfold book_ok; simpl.
  unfold copies_of in Hc. rewrite Hc, Z.leb_refl. reflexivity.
Qed.

Lemma patch_keeps_counts (ups : list patch_entry) (b : book) :
  existsb touches_counts ups = false ->
  availableCopies (fold_left apply_entry ups b) = availableCopies b /\
  totalCopies (fold_left apply_entry ups b) = totalCopies b.
Proof.
  revert b; induction ups as [|en ups IH]; intros b H; simpl in *; [auto|].
  apply orb_false_iff in H as [Hen Hups].
  destruct (IH (apply_entry b en) Hups) as [-> ->].
  destruct en as [v| |]; simpl; auto.
  destruct b; destruct v; simpl in *; auto; discriminate.
Qed.

Lemma update_preserves (st : bs_state) (id : string) (ups : list patch_entry) :
  existsb touches_counts ups = false ->
  copies_invariant st = true -> copies_invariant (snd (updateBook st id ups)) = true.
Proof.
  intros Hups Hinv. unfold updateBook.
  destruct (getBookById (books st) id) as [b|] eqn:Hb; [|exact Hinv].
  unfold copies_invariant; simpl.
  apply ListFacts.forallb_update_first; [exact Hinv|].
  intros x _. pose proof (ok_of_find _ _ _ Hinv Hb) as Hok.
  destruct (patch_keeps_counts ups b Hups) as [Ha Ht].
  unfold book_ok in *. rewrite Ha, Ht. exact Hok.
Qed.

Lemma run_op_preserves (o : op) (es : env * bs_state) :
  preserving_op o = true -> copies_invariant (snd es) = true ->
  copies_invariant (snd (run_op es o)) = true.
Proof.
  destruct es as [e st]. intros Ho Hinv.
  destruct o as [clk id n|clk rid|y d|id ups|clk id]; simpl in *.
  - pose proof (reserve_preserves clk e st id n Hinv) as H.
    destruct (reserveBook clk e st id n) as [[r e'] st']. exact H.
  - discriminate.
  - now apply add_preserves.
  - apply update_preserves; [now apply negb_true_iff | exact Hinv].
  - now apply delete_preserves.
Qed.

End Ops.

(** C1 (as the code has it): any sequence of reserve, delete, add (with a
    copies value that is not negative) and update (setting neither count)
    keeps [0 <= availableCopies <= totalCopies] for every book.  Cancel is
    not among them: it adds a copy back without checking the status (see
    [copies_invariant_cancel_counterexample]). *)
Theorem copies_invariant_preserved (os : list Ops.op) (e : env) (st : bs_state)
    (Hops : forallb Ops.preserving_op os = true)
    (Hinv : Ops.copies_invariant st = true) :
  Ops.copies_invariant (snd (Ops.run_ops os (e, st))) = true.
Proof.
  unfold Ops.run_ops. revert e st Hinv.
  induction os as [|o os IH]; intros e st Hinv; cbn [fold_left]; [exact Hinv|].
  simpl in Hops. apply andb_true_iff in Hops as [Ho Hos].
  pose proof (Ops.run_op_preserves o (e, st) Ho Hinv) as H.
  destruct (Ops.run_op (e, st) o) as [e' st'] eqn:E. apply IH; assumption.
Qed.

Lemma copies_invariant_preserved_witness :
  Ops.copies_invariant
    (snd (Ops.run_ops [Ops.OpReserve Examples.clk_tick "dune" None;
                       Ops.OpDelete Examples.clk_tick "dune"]
                      (Examples.env_reader, Examples.st_free))) = true.
Proof.
  apply copies_invariant_preserved; reflexivity.
Defined.

(** C1 fails: from [st_reserved] (one of two copies reserved), cancelling
    the same reservation twice leaves 3 available copies of a 2-copy book. *)
Lemma copies_invariant_cancel_counterexample :
  Ops.copies_invariant Examples.st_reserved = true /\
  Ops.copies_invariant
    (snd (Ops.run_ops [Ops.OpCancel Examples.clk_tick "RES-1";
                       Ops.OpCancel Examples.clk_tick "RES-1"]
                      (Examples.env_reader, Examples.st_reserved))) = false.
Proof. vm_compute. split; reflexivity. Qed.

(* ------------------------------------------------------------------------ *)
(** ** Offline login (C6) *)

(** C6 (evaluation at the failing input, and the general fact behind it):
    [handleOfflineLogin] never writes [authExpiry] (unlike the connected
    path's [storeSession], which records now + 4 hours); a valid offline
    login from an empty session stores the token, the user (id = time,
    name = local part) and the type, and no expiry. Empty fields and an
    email without '@' fail with their messages. *)
Theorem offline_login_sets_no_expiry :
  (forall clk email password ty s,
     authExpiry (snd (Auth.handleOfflineLogin clk email password ty s)) = authExpiry s) /\
  Auth.handleOfflineLogin Examples.clk_tick "reader@example.com" "secret" "customer" empty_session
  = (Auth.LoginOk (mkUser 1704067200000 "reader@example.com" "reader" "customer"),
     mkSession (Some "demo-token-1704067200001")
               (Some (mkUser 1704067200000 "reader@example.com" "reader" "customer"))
               (Some "customer") None) /\
  authExpiry (Auth.storeSession 1704067200000 "t"
                (mkUser 1 "reader@example.com" "reader" "customer") "customer" empty_session)
  = Some (1704067200000 + 14400000) /\
  fst (Auth.handleOfflineLogin Examples.clk_tick "" "secret" "customer" empty_session)
  = Auth.LoginFail "Email and password required" /\
  fst (Auth.handleOfflineLogin Examples.clk_tick "reader" "secret" "customer" empty_session)
  = Auth.LoginFail "Invalid email format".
Proof.
  split.
  - intros clk email password ty s. unfold Auth.handleOfflineLogin.
    destruct (_ || _); [reflexivity|]. destruct (negb _); reflexivity.
  - vm_compute. repeat split.
Qed.

(* ------------------------------------------------------------------------ *)
(** ** Adding a book (C7) *)

Module AddFacts.
Import BookSystem.

Lemma strip_non_slug_chars (s : string) (c : ascii) :
  In c (list_ascii_of_string (strip_non_slug s)) -> slug_char c = true.
Proof.
  induction s as [|d s IH]; simpl; [tauto|].
  destruct (slug_char d) eqn:E; simpl; [|exact IH].
  intros [<-|H]; auto.
Qed.




End AddFacts.

(** ** Decimal numbers: [String(n)] read back by [parseInt] *)

Module DecFacts.
Import BookSystem.

Definition digit_char (c : ascii) : Prop := (48 <= nat_of_ascii c <= 57)%nat.

Definition all_digits (s : string) : Prop :=
  forall c, In c (list_ascii_of_string s) -> digit_char c.

Lemma digit_of (d : Z) :
  0 <= d < 10 ->
  digit_char (ascii_of_nat (48 + Z.to_nat d)) /\ code (ascii_of_nat (48 + Z.to_nat d)) = 48 + d.
Proof.
  intros Hd. unfold digit_char, code. rewrite nat_ascii_embedding by lia. split; lia.
Qed.

Lemma digit_value_digit (c : ascii) : digit_char c -> digit_value 10 c = Some (code c - 48).
Proof.
  unfold digit_char, digit_value, code. intros H.
  destruct (Z.leb_spec 48 (Z.of_nat (nat_of_ascii c))); [|lia].
  destruct (Z.leb_spec (Z.of_nat (nat_of_ascii c)) 57); [|lia]. simpl.
  destruct (Z.ltb_spec (Z.of_nat (nat_of_ascii c) - 48) 10); [reflexivity|lia].
Qed.

Lemma digits_prefix_digit (d : Z) (acc : string) (a : Z) (seen : bool) :
  0 <= d < 10 ->
  digits_prefix 10 (String (ascii_of_nat (48 + Z.to_nat d)) acc) a seen =
  digits_prefix 10 acc (a * 10 + d) true.
Proof.
  intros Hd. destruct (digit_of d Hd) as [Hc Hcode].
  cbn [digits_prefix]. rewrite (digit_value_digit _ Hc), Hcode.
  replace (48 + d - 48) with d by lia. reflexivity.
Qed.

Lemma digits_rev_S (f : nat) (m : Z) (acc : string) :
  digits_rev (S f) m acc =
  if Z.eqb (m / 10) 0 then String (ascii_of_nat (48 + Z.to_nat (m mod 10))) acc
  else digits_rev f (m / 10) (String (ascii_of_nat (48 + Z.to_nat (m mod 10))) acc).
Proof. reflexivity. Qed.

Lemma digits_value (f : nat) :
  forall m acc a seen, 0 <= m < 10 ^ Z.of_nat (S f) ->
  exists k, 0 <= k /\
    digits_prefix 10 (digits_rev (S f) m acc) a seen = digits_prefix 10 acc (a * 10 ^ k + m) true.
Proof.
  induction f as [|f IH]; intros m acc a seen Hm; rewrite digits_rev_S;
    pose proof (Z.mod_pos_bound m 10 ltac:(lia)) as Hmod;
    pose proof (Z.div_mod m 10 ltac:(lia)) as Hdm.
  - assert (Hq : m / 10 = 0) by (apply Z.div_small; simpl in Hm; lia).
    rewrite Hq, Z.eqb_refl. exists 1. split; [lia|].
    rewrite digits_prefix_digit by exact Hmod. f_equal. lia.
  - destruct (Z.eqb_spec (m / 10) 0) as [Hq|Hq].
    + exists 1. split; [lia|].
      rewrite digits_prefix_digit by exact Hmod. f_equal. lia.
    + assert (Hb : 0 <= m / 10 < 10 ^ Z.of_nat (S f)).
      { split; [apply Z.div_pos; lia|].
        apply Z.div_lt_upper_bound; [lia|].
        rewrite Nat2Z.inj_succ, Z.pow_succ_r in Hm by lia. lia. }
      destruct (IH (m / 10) (String (ascii_of_nat (48 + Z.to_nat (m mod 10))) acc) a seen Hb)
        as [k [Hk Heq]].
      exists (k + 1). split; [lia|].
      rewrite Heq, digits_prefix_digit by exact Hmod. f_equal.
      rewrite Z.pow_add_r by lia. nia.
Qed.

Lemma digits_chars (f : nat) :
  forall m acc, 0 <= m -> all_digits acc -> all_digits (digits_rev f m acc).
Proof.
  induction f as [|f IH]; intros m acc Hm Hacc; cbn [digits_rev]; [exact Hacc|].
  pose proof (Z.mod_pos_bound m 10 ltac:(lia)) as Hmod.
  assert (Hacc' : all_digits (String (ascii_of_nat (48 + Z.to_nat (m mod 10))) acc)).
  { intros c [<-|Hc]; [exact (proj1 (digit_of _ Hmod))|exact (Hacc c Hc)]. }
  destruct (Z.eqb (m / 10) 0); [exact Hacc'|].
  apply IH; [apply Z.div_pos; lia|exact Hacc'].
Qed.

Lemma digits_nonempty (f : nat) (m : Z) (acc : string) : digits_rev (S f) m acc <> EmptyString.
Proof.
  revert m acc. induction f as [|f IH]; intros m acc; cbn [digits_rev].
  - destruct (Z.eqb (m / 10) 0); discriminate.
  - destruct (Z.eqb (m / 10) 0); [discriminate|apply IH].
Qed.

Lemma not_space_digit (c : ascii) : digit_char c -> is_space c = false.
Proof.
  unfold digit_char, is_space. intros H.
  apply orb_false_iff. split.
  - apply andb_false_iff. right. apply Nat.leb_gt. lia.
  - apply Nat.eqb_neq. lia.
Qed.

Lemma not_x_digit (c : ascii) : digit_char c -> (Ascii.eqb c "x" || Ascii.eqb c "X")%bool = false.
Proof.
  unfold digit_char. intros H.
  destruct (Ascii.eqb_spec c "x") as [->|]; [vm_compute in H; lia|].
  destruct (Ascii.eqb_spec c "X") as [->|]; [vm_compute in H; lia|reflexivity].
Qed.

(** [parseInt] of a non-empty digit string, with or without a minus sign. *)
Lemma parseInt_digits (s : string) :
  s <> EmptyString -> all_digits s ->
  parseInt s = option_map (fun n => 1 * n) (digits_prefix 10 s 0 false) /\
  parseInt (String "-" s) = option_map (fun n => -1 * n) (digits_prefix 10 s 0 false).
Proof.
  destruct s as [|c rest]; [congruence|]. intros _ Hall.
  assert (Hc : digit_char c) by (apply Hall; now left).
  assert (Hr : forall x r, rest = String x r -> digit_char x).
  { intros x r ->. apply Hall. right. now left. }
  unfold parseInt. cbn [trim_start]. rewrite (not_space_digit c Hc).
  change (is_space "-") with false.
  unfold digit_char in Hc.
  destruct c as [[] [] [] [] [] [] [] []]; vm_compute in Hc; try lia;
    (destruct rest as [|x r]; [split; reflexivity|]);
    cbv beta iota zeta; rewrite ?(not_x_digit x (Hr x r eq_refl)); split; reflexivity.
Qed.

(** [String(n)] read back by [parseInt] gives [n]. *)
Lemma parseInt_to_dec (n : Z) : parseInt (to_dec n) = Some n.
Proof.
  unfold to_dec.
  set (m := Z.abs n). set (f := Z.to_nat (Z.log2 m)).
  assert (Hm : 0 <= m < 10 ^ Z.of_nat (S f)).
  { split; [apply Z.abs_nonneg|]. unfold f.
    destruct (Z.eq_dec m 0) as [->|Hnz]; [simpl; lia|].
    rewrite Nat2Z.inj_succ, Z2Nat.id by apply Z.log2_nonneg.
    apply Z.lt_le_trans with (2 ^ Z.succ (Z.log2 m)).
    - apply Z.log2_spec. lia.
    - apply Z.pow_le_mono_l. split; [lia|lia]. }
  destruct (digits_value f m EmptyString 0 false Hm) as [k [_ Hk]].
  rewrite Z.mul_0_l, Z.add_0_l in Hk.
  assert (Hd : all_digits (digits_rev (S f) m EmptyString)).
  { apply digits_chars; [lia|]. intros c []. }
  destruct (parseInt_digits _ (digits_nonempty f m EmptyString) Hd) as [Hp Hn].
  destruct (Z.ltb_spec n 0).
  - cbv zeta. rewrite Hn, Hk. cbn [option_map digits_prefix]. f_equal. unfold m. lia.
  - cbv zeta. rewrite Hp, Hk. cbn [option_map digits_prefix]. f_equal. unfold m. lia.
Qed.

End DecFacts.




(** The search example of the spec, on the first seeded book. *)
Example searchBooks_mystery :
  let silent := mkBook "silent-patient" "The Silent Patient" "Alex Michaelides"
                  "Mystery & Thriller" "" 3 2 "978-1250301697" 336 2019
                  (IconName "fas fa-search") ["psychological"; "thriller"; "mystery"] in
  BookSystem.searchBooks [silent] (Some "mystery") (Some "all") = [silent] /\
  BookSystem.searchBooks [silent] (Some "nonexistent") (Some "all") = [].
Proof. vm_compute. split; reflexivity. Qed.

(* ======================================================================== *)
(** * Further properties of the code *)

(** ** How reserving behaves once the caller is known *)

Module ReserveFacts.
Import BookSystem.

Definition dup_pred (bookId : string) (u : user) (r : reservation) : bool :=
  (r.(r_bookId) =? bookId) && Z.eqb r.(r_userId) u.(u_id) && status_eqb r.(r_status) Active.

Lemma caller_user (now : Z) (e : env) (u : user) :
  Reserve.caller now e = Some u -> e.(auth_loaded) = true /\ currentUser e.(storage) = Some u.
Proof.
  unfold Reserve.caller. destruct (auth_loaded e); [|discriminate].
  destruct (Auth.getCurrentUser now (storage e)) as [[u'|] s'] eqn:G; simpl; [|discriminate].
  intros [= ->]. split; [reflexivity|]. eapply Reserve.getCurrentUser_some_user; eauto.
Qed.

Lemma caller_storage (now : Z) (e : env) (u : user) :
  Reserve.caller now e = Some u -> Auth.getCurrentUser now e.(storage) = (Some u, e.(storage)).
Proof.
  unfold Reserve.caller. destruct (auth_loaded e); [|discriminate].
  destruct (Auth.getCurrentUser now (storage e)) as [[u'|] s'] eqn:G; simpl; [|discriminate].
  intros [= ->]. now rewrite (Reserve.getCurrentUser_some_same _ _ _ _ G).
Qed.

(** What [reserveBook] answers when the caller is [u] at both reads. *)
Lemma reserve_with_caller (clk : clock) (e : env) (st : bs_state) (bookId : string)
    (notes_in : option string) (u : user) :
  Reserve.caller (clk 0%nat) e = Some u -> Reserve.caller (clk 1%nat) e = Some u ->
  fst (fst (reserveBook clk e st bookId notes_in)) =
  match getBookById st.(books) bookId with
  | None => ReserveFail msg_book_not_found
  | Some b =>
      if Z.leb b.(availableCopies) 0 then ReserveFail msg_no_copies
      else match find (dup_pred bookId u) st.(reservations) with
           | Some _ => ReserveFail msg_duplicate
           | None => ReserveOk ("RES-" ++ to_dec (clk 2%nat)) (clk 4%nat + seven_days)
           end
  end.
Proof.
  intros H0 H1. destruct (caller_user _ _ _ H0) as [Ha _].
  pose proof (caller_storage _ _ _ H0) as G0. pose proof (caller_storage _ _ _ H1) as G1.
  unfold reserveBook, Auth.isAuthenticated. rewrite Ha, G0. simpl. rewrite G1.
  destruct (getBookById (books st) bookId) as [b|]; [|reflexivity].
  destruct (Z.leb (availableCopies b) 0); [reflexivity|].
  unfold dup_pred. destruct (find _ _); reflexivity.
Qed.

(** A failing [reserveBook] leaves books and reservations as they were. *)
Lemma reserve_fail_unchanged (clk : clock) (e : env) (st : bs_state) (bookId : string)
    (notes_in : option string) :
  reserve_success (fst (fst (reserveBook clk e st bookId notes_in))) = false ->
  snd (reserveBook clk e st bookId notes_in) = st.
Proof.
  unfold reserveBook, Auth.isAuthenticated.
  destruct (auth_loaded e); simpl; [|reflexivity].
  destruct (Auth.getCurrentUser (clk 0%nat) (storage e)) as [[u0|] s1]; simpl; [|reflexivity].
  destruct (Auth.getCurrentUser (clk 1%nat) s1) as [[u1|] s2];
  destruct (getBookById (books st) bookId) as [b|]; simpl; try reflexivity;
  destruct (Z.leb (availableCopies b) 0); simpl; try reflexivity.
  destruct (find _ _); simpl; [reflexivity | discriminate].
Qed.

(** The shape of a successful [reserveBook]. *)
Lemma reserve_ok_shape (clk : clock) (e : env) (st : bs_state) (bookId : string)
    (notes_in : option string) (r : reserve_result) (e1 : env) (st1 : bs_state) :
  reserveBook clk e st bookId notes_in = (r, e1, st1) -> reserve_success r = true ->
  exists u b res,
    Reserve.caller (clk 0%nat) e = Some u /\ Reserve.caller (clk 1%nat) e = Some u /\
    getBookById st.(books) bookId = Some b /\ 0 < b.(availableCopies) /\
    find (dup_pred bookId u) st.(reservations) = None /\
    e1 = mkEnv true e.(storage) /\
    res.(r_id) = "RES-" ++ to_dec (clk 2%nat) /\ res.(r_bookId) = bookId /\
    res.(r_userId) = u.(u_id) /\ res.(r_status) = Active /\
    res.(reservationDate) = clk 3%nat /\ res.(expiryDate) = clk 4%nat + seven_days /\
    r = ReserveOk res.(r_id) res.(expiryDate) /\
    st1.(books) = update_first (fun b => b_id b =? bookId)
                    (fun b => with_available (availableCopies b - 1) b) st.(books) /\
    st1.(reservations) = app st.(reservations) [res].
Proof.
  intros H Hs. unfold reserveBook, Auth.isAuthenticated, Reserve.caller in *.
  destruct e as [[|] s]; simpl in *; [|injection H as <- _ _; discriminate].
  destruct (Auth.getCurrentUser (clk 0%nat) s) as [[u0|] s1] eqn:G0; simpl in *;
    [|injection H as <- _ _; discriminate].
  pose proof (Reserve.getCurrentUser_some_same _ _ _ _ G0) as ->.
  destruct (Auth.getCurrentUser (clk 1%nat) s) as [[u1|] s2] eqn:G1; simpl in *;
  destruct (getBookById (books st) bookId) as [b|] eqn:Hb;
    try (injection H as <- _ _; discriminate);
  destruct (Z.leb_spec (availableCopies b) 0); try (injection H as <- _ _; discriminate).
  destruct (find _ _) eqn:Hf; [injection H as <- _ _; discriminate|].
  pose proof (Reserve.getCurrentUser_some_same _ _ _ _ G1) as ->.
  assert (u1 = u0) as ->.
  { pose proof (Reserve.getCurrentUser_some_user _ _ _ _ G0).
    pose proof (Reserve.getCurrentUser_some_user _ _ _ _ G1). congruence. }
  injection H as <- <- <-.
  do 3 eexists. repeat split; try eassumption; try reflexivity; try lia.
Qed.

Lemma find_some_exists {A} (p : A -> bool) (l : list A) (x : A) :
  In x l -> p x = true -> exists y, find p l = Some y.
Proof.
  induction l as [|y l IH]; simpl; [tauto|].
  intros [->|Hin] Hp; [rewrite Hp; eauto|].
  destruct (p y); eauto.
Qed.

End ReserveFacts.

Module ListFacts2.

Lemma length_update_first {A} (p : A -> bool) (f : A -> A) (l : list A) :
  length (update_first p f l) = length l.
Proof. induction l as [|x l IH]; simpl; [reflexivity|]. destruct (p x); simpl; auto. Qed.

Lemma update_first_compose {A} (p : A -> bool) (f g : A -> A) (l : list A) :
  (forall x, p x = true -> p (f x) = true) ->
  update_first p g (update_first p f l) = update_first p (fun x => g (f x)) l.
Proof.
  intros Hf. induction l as [|x l IH]; simpl; [reflexivity|].
  destruct (p x) eqn:Hx; simpl; [now rewrite (Hf x Hx)|]. rewrite Hx. now rewrite IH.
Qed.

Lemma update_first_id {A} (p : A -> bool) (h : A -> A) (l : list A) :
  (forall x, p x = true -> h x = x) -> update_first p h l = l.
Proof.
  intros Hh. induction l as [|x l IH]; simpl; [reflexivity|].
  destruct (p x) eqn:Hx; [now rewrite (Hh x Hx)|now rewrite IH].
Qed.

Lemma find_app_last {A} (p : A -> bool) (l : list A) (x : A) :
  (forall y, In y l -> p y = false) -> p x = true -> find p (app l [x]) = Some x.
Proof.
  intros Hl Hx. induction l as [|y l IH]; simpl; [now rewrite Hx|].
  rewrite (Hl y (or_introl eq_refl)). apply IH. intros z Hz. apply Hl. now right.
Qed.

Lemma update_first_app_last {A} (p : A -> bool) (f : A -> A) (l : list A) (x : A) :
  (forall y, In y l -> p y = false) -> p x = true ->
  update_first p f (app l [x]) = app l [f x].
Proof.
  intros Hl Hx. induction l as [|y l IH]; simpl; [now rewrite Hx|].
  rewrite (Hl y (or_introl eq_refl)). f_equal. apply IH. intros z Hz. apply Hl. now right.
Qed.

End ListFacts2.

Module StatsFacts.
Import BookSystem.

Lemma sum_of_acc (f : book -> Z) (l : list book) (a : Z) :
  fold_left (fun s b => s + f b) l a = a + sum_of f l.
Proof.
  unfold sum_of. revert a. induction l as [|x l IH]; intros a; simpl; [lia|].
  rewrite (IH (a + f x)), (IH (f x)). lia.
Qed.

Lemma sum_of_cons (f : book -> Z) (x : book) (l : list book) :
  sum_of f (x :: l) = f x + sum_of f l.
Proof. unfold sum_of at 1. simpl. rewrite sum_of_acc. lia. Qed.

Lemma sum_of_update_first (f : book -> Z) (p : book -> bool) (g : book -> book)
    (l : list book) (x : book) :
  find p l = Some x -> sum_of f (update_first p g l) = sum_of f l - f x + f (g x).
Proof.
  induction l as [|y l IH]; simpl; [discriminate|].
  destruct (p y); [intros [= ->]; rewrite !sum_of_cons; lia|].
  intros H. rewrite !sum_of_cons, (IH H). lia.
Qed.

Lemma sum_of_update_first_same (f : book -> Z) (p : book -> bool) (g : book -> book)
    (l : list book) :
  (forall x, f (g x) = f x) -> sum_of f (update_first p g l) = sum_of f l.
Proof.
  intros Hg. induction l as [|y l IH]; simpl; [reflexivity|].
  destruct (p y); rewrite !sum_of_cons; [rewrite Hg|rewrite IH]; reflexivity.
Qed.

Lemma active_count_app (l : list reservation) (x : reservation) :
  x.(r_status) = Active ->
  length (filter (fun r => status_eqb r.(r_status) Active) (app l [x])) =
  (length (filter (fun r => status_eqb r.(r_status) Active) l) + 1)%nat.
Proof. intros Hx. rewrite filter_app, length_app. simpl. now rewrite Hx. Qed.

End StatsFacts.

(** X1 [isBookAvailable]: for a caller with a valid session and no active
    reservation of the book, [reserveBook] succeeds exactly when
    [isBookAvailable] holds. *)
Theorem reserve_succeeds_iff_available (clk : clock) (e : env) (st : bs_state)
    (bookId : string) (notes_in : option string) (u : user)
    (H0 : Reserve.caller (clk 0%nat) e = Some u)
    (H1 : Reserve.caller (clk 1%nat) e = Some u)
    (Hd : find (ReserveFacts.dup_pred bookId u) st.(reservations) = None) :
  BookSystem.reserve_success (fst (fst (BookSystem.reserveBook clk e st bookId notes_in)))
  = BookSystem.isBookAvailable st bookId.
Proof.
  rewrite (ReserveFacts.reserve_with_caller _ _ _ _ _ _ H0 H1), Hd.
  unfold BookSystem.isBookAvailable.
  destruct (BookSystem.getBookById (books st) bookId) as [b|]; [|reflexivity].
  destruct (Z.leb_spec (availableCopies b) 0); destruct (Z.ltb_spec 0 (availableCopies b));
    simpl; try reflexivity; lia.
Qed.

(** X2 [getStats]: a successful [reserveBook] keeps the number of books and
    of copies, lowers the available copies by one and raises the active
    reservations by one. *)
Theorem reserve_updates_stats (clk : clock) (e : env) (st : bs_state) (bookId : string)
    (notes_in : option string) (r : BookSystem.reserve_result) (e1 : env) (st1 : bs_state)
    (H : BookSystem.reserveBook clk e st bookId notes_in = (r, e1, st1))
    (Hs : BookSystem.reserve_success r = true) :
  let s0 := BookSystem.getStats st in
  let s1 := BookSystem.getStats st1 in
  BookSystem.s_totalBooks s1 = BookSystem.s_totalBooks s0 /\
  BookSystem.s_totalCopies s1 = BookSystem.s_totalCopies s0 /\
  BookSystem.s_availableCopies s1 = BookSystem.s_availableCopies s0 - 1 /\
  BookSystem.s_activeReservations s1 = BookSystem.s_activeReservations s0 + 1.
Proof.
  destruct (ReserveFacts.reserve_ok_shape _ _ _ _ _ _ _ _ H Hs)
    as (u & b & res & _ & _ & Hb & _ & _ & _ & _ & _ & _ & Hact & _ & _ & _ & Hbs & Hrs).
  unfold BookSystem.getStats; simpl. rewrite Hbs, Hrs.
  rewrite ListFacts2.length_update_first, StatsFacts.active_count_app by exact Hact.
  rewrite (StatsFacts.sum_of_update_first availableCopies _ _ _ _ Hb).
  rewrite (StatsFacts.sum_of_update_first_same totalCopies) by reflexivity.
  simpl. repeat split; lia.
Qed.

(** X3 [reserveBook] then [cancelReservation]: cancelling the reservation
    just made (its id new, the session still valid) succeeds, puts every
    book back exactly as before, and leaves the new reservation in the list
    marked cancelled; both collections are saved. *)
Theorem reserve_then_cancel (clk clk' : clock) (e : env) (st : bs_state) (bookId : string)
    (notes_in : option string) (r : BookSystem.reserve_result) (e1 : env) (st1 : bs_state)
    (H : BookSystem.reserveBook clk e st bookId notes_in = (r, e1, st1))
    (Hs : BookSystem.reserve_success r = true)
    (Hfresh : forall x, In x st.(reservations) -> r_id x <> "RES-" ++ to_dec (clk 2%nat))
    (Hc : Reserve.caller (clk' 0%nat) e1 <> None) :
  exists res,
    st1.(reservations) = app st.(reservations) [res] /\
    r = BookSystem.ReserveOk res.(r_id) res.(expiryDate) /\
    let '(c, _, st2) := BookSystem.cancelReservation clk' e1 st1 res.(r_id) in
    c = BookSystem.CancelOk /\ st2.(books) = st.(books) /\
    st2.(reservations) = app st.(reservations) [BookSystem.with_cancelled (clk' 1%nat) res] /\
    st2.(saved_books) = st2.(books) /\ st2.(saved_reservations) = st2.(reservations).
Proof.
  destruct (ReserveFacts.reserve_ok_shape _ _ _ _ _ _ _ _ H Hs)
    as (u & b & res & Hu0 & _ & Hb & _ & _ & He1 & Hid & Hbk & Huid & _ & _ & _ & Hr & Hbs & Hrs).
  exists res. split; [exact Hrs|]. split; [exact Hr|].
  destruct (Reserve.caller (clk' 0%nat) e1) as [u'|] eqn:Hc'; [|congruence].
  destruct (ReserveFacts.caller_user _ _ _ Hu0) as [_ Hcu].
  destruct (ReserveFacts.caller_user _ _ _ Hc') as [Ha1 Hcu'].
  pose proof (ReserveFacts.caller_storage _ _ _ Hc') as G.
  rewrite He1 in Hcu', G. simpl in Hcu', G.
  assert (u' = u) as -> by congruence.
  assert (Hnot : forall y, In y (reservations st) -> (r_id y =? r_id res) = false).
  { intros y Hy. apply String.eqb_neq. rewrite Hid. now apply Hfresh. }
  unfold BookSystem.cancelReservation. rewrite Hrs.
  rewrite ListFacts2.find_app_last by (exact Hnot || apply String.eqb_refl).
  rewrite He1. simpl. rewrite G, Huid, Z.eqb_refl. simpl.
  rewrite ListFacts2.update_first_app_last by (exact Hnot || apply String.eqb_refl).
  rewrite Hbs, Hbk.
  rewrite ListFacts2.update_first_compose by (intros [] ?; exact H0).
  rewrite ListFacts2.update_first_id
    by (intros [] _; unfold BookSystem.with_available; simpl; f_equal; lia).
  repeat split; reflexivity.
Qed.

(** X4 [reserveBook] twice: once a reservation of a book succeeded, the
    same user (session still valid) reserving the same book again is
    refused, for lack of copies or as a duplicate, and nothing changes. *)
Theorem reserve_twice_rejected (clk clk' : clock) (e : env) (st : bs_state) (bookId : string)
    (n1 n2 : option string) (r : BookSystem.reserve_result) (e1 : env) (st1 : bs_state)
    (H : BookSystem.reserveBook clk e st bookId n1 = (r, e1, st1))
    (Hs : BookSystem.reserve_success r = true)
    (Hc0 : Reserve.caller (clk' 0%nat) e1 <> None)
    (Hc1 : Reserve.caller (clk' 1%nat) e1 <> None) :
  (fst (fst (BookSystem.reserveBook clk' e1 st1 bookId n2)) = BookSystem.ReserveFail BookSystem.msg_no_copies \/
   fst (fst (BookSystem.reserveBook clk' e1 st1 bookId n2)) = BookSystem.ReserveFail BookSystem.msg_duplicate) /\
  snd (BookSystem.reserveBook clk' e1 st1 bookId n2) = st1.
Proof.
  destruct (ReserveFacts.reserve_ok_shape _ _ _ _ _ _ _ _ H Hs)
    as (u & b & res & Hu0 & _ & Hb & _ & _ & He1 & _ & Hbk & Huid & Hact & _ & _ & _ & Hbs & Hrs).
  destruct (ReserveFacts.caller_user _ _ _ Hu0) as [_ Hcu].
  destruct (Reserve.caller (clk' 0%nat) e1) as [u0|] eqn:G0; [|congruence].
  destruct (Reserve.caller (clk' 1%nat) e1) as [u1|] eqn:G1; [|congruence].
  destruct (ReserveFacts.caller_user _ _ _ G0) as [_ H0'].
  destruct (ReserveFacts.caller_user _ _ _ G1) as [_ H1'].
  rewrite He1 in H0', H1'. simpl in H0', H1'.
  assert (u0 = u) as -> by congruence. assert (u1 = u) as -> by congruence.
  assert (Hres : fst (fst (BookSystem.reserveBook clk' e1 st1 bookId n2)) = BookSystem.ReserveFail BookSystem.msg_no_copies \/
                 fst (fst (BookSystem.reserveBook clk' e1 st1 bookId n2)) = BookSystem.ReserveFail BookSystem.msg_duplicate).
  { rewrite (ReserveFacts.reserve_with_caller _ _ _ _ _ _ G0 G1).
    unfold BookSystem.getBookById in *. rewrite Hbs.
    rewrite ListFacts.find_update_first by (intros [] ?; exact H0).
    rewrite Hb. simpl.
    destruct (Z.leb (availableCopies b - 1) 0); [now left|right].
    destruct (ReserveFacts.find_some_exists (ReserveFacts.dup_pred bookId u) (reservations st1) res)
      as [y Hy].
    - rewrite Hrs. apply in_or_app. right. now left.
    - unfold ReserveFacts.dup_pred. rewrite Hbk, Huid, Hact, String.eqb_refl, Z.eqb_refl. reflexivity.
    - now rewrite Hy. }
  split; [exact Hres|].
  apply ReserveFacts.reserve_fail_unchanged.
  destruct Hres as [-> | ->]; reflexivity.
Qed.

Lemma reserve_succeeds_iff_available_witness :
  Reserve.caller (Examples.clk_tick 0%nat) Examples.env_reader = Some Examples.reader /\
  BookSystem.reserve_success
    (fst (fst (BookSystem.reserveBook Examples.clk_tick Examples.env_reader
                 Examples.st_free "dune" None)))
  = BookSystem.isBookAvailable Examples.st_free "dune".
Proof.
  split; [reflexivity|].
  apply (reserve_succeeds_iff_available Examples.clk_tick Examples.env_reader
           Examples.st_free "dune" None Examples.reader); reflexivity.
Defined.

Lemma reserve_updates_stats_witness :
  let X := BookSystem.reserveBook Examples.clk_tick Examples.env_reader Examples.st_free "dune" None in
  BookSystem.reserve_success (fst (fst X)) = true /\
  BookSystem.s_availableCopies (BookSystem.getStats (snd X)) =
  BookSystem.s_availableCopies (BookSystem.getStats Examples.st_free) - 1.
Proof.
  intros X. split; [reflexivity|].
  apply (reserve_updates_stats Examples.clk_tick Examples.env_reader Examples.st_free "dune" None
           (fst (fst X)) (snd (fst X)) (snd X)); reflexivity.
Defined.

Lemma reserve_then_cancel_witness :
  let X := BookSystem.reserveBook Examples.clk_tick Examples.env_reader Examples.st_free "dune" None in
  BookSystem.reserve_success (fst (fst X)) = true /\
  exists res,
    (snd X).(reservations) = app Examples.st_free.(reservations) [res] /\
    fst (fst X) = BookSystem.ReserveOk res.(r_id) res.(expiryDate) /\
    let '(c, _, st2) := BookSystem.cancelReservation Examples.clk_tick (snd (fst X)) (snd X) res.(r_id) in
    c = BookSystem.CancelOk /\ st2.(books) = Examples.st_free.(books) /\
    st2.(reservations) = app Examples.st_free.(reservations)
                           [BookSystem.with_cancelled (Examples.clk_tick 1%nat) res] /\
    st2.(saved_books) = st2.(books) /\ st2.(saved_reservations) = st2.(reservations).
Proof.
  intros X. split; [reflexivity|].
  apply (reserve_then_cancel Examples.clk_tick Examples.clk_tick Examples.env_reader Examples.st_free
           "dune" None (fst (fst X)) (snd (fst X)) (snd X)); try reflexivity.
  - intros x [].
  - vm_compute. discriminate.
Defined.

Lemma reserve_twice_rejected_witness :
  let X := BookSystem.reserveBook Examples.clk_tick Examples.env_reader Examples.st_free "dune" None in
  BookSystem.reserve_success (fst (fst X)) = true /\
  ((fst (fst (BookSystem.reserveBook Examples.clk_tick (snd (fst X)) (snd X) "dune" None))
    = BookSystem.ReserveFail BookSystem.msg_no_copies \/
    fst (fst (BookSystem.reserveBook Examples.clk_tick (snd (fst X)) (snd X) "dune" None))
    = BookSystem.ReserveFail BookSystem.msg_duplicate) /\
   snd (BookSystem.reserveBook Examples.clk_tick (snd (fst X)) (snd X) "dune" None) = snd X).
Proof.
  intros X. split; [reflexivity|].
  apply (reserve_twice_rejected Examples.clk_tick Examples.clk_tick Examples.env_reader Examples.st_free
           "dune" None None (fst (fst X)) (snd (fst X)) (snd X)); try reflexivity;
    vm_compute; discriminate.
Defined.

(** ** [getUserReservations] *)

Module UserRes.
Import BookSystem.

(** [a] may come before [b] in a list sorted newest first. *)
Definition newer_eq (a b : reservation) : Prop :=
  b.(reservationDate) <= a.(reservationDate).

Lemma insert_perm (r : reservation) (l : list reservation) :
  Permutation (insert_by_date_desc r l) (r :: l).
Proof.
  induction l as [|x l IH]; simpl; [reflexivity|].
  destruct (Z.ltb _ _); [reflexivity|].
  rewrite IH. apply perm_swap.
Qed.

Lemma insert_sorted (r : reservation) (l : list reservation) :
  Sorted newer_eq l -> Sorted newer_eq (insert_by_date_desc r l).
Proof.
  induction l as [|x l IH]; simpl; intros H; [repeat constructor|].
  destruct (Z.ltb_spec (reservationDate x) (reservationDate r)).
  - constructor; [exact H|]. constructor. unfold newer_eq. lia.
  - inversion H as [|? ? Hl Hhd]; subst. constructor; [now apply IH|].
    destruct l as [|y l']; simpl.
    + constructor. unfold newer_eq. lia.
    + destruct (Z.ltb _ _); constructor; [unfold newer_eq; lia|].
      now inversion Hhd.
Qed.

Lemma sort_perm_sorted (l acc : list reservation) :
  Sorted newer_eq acc ->
  Permutation (fold_left (fun acc r => insert_by_date_desc r acc) l acc) (app l acc) /\
  Sorted newer_eq (fold_left (fun acc r => insert_by_date_desc r acc) l acc).
Proof.
  revert acc. induction l as [|x l IH]; intros acc Hs; simpl; [split; [reflexivity|exact Hs]|].
  destruct (IH (insert_by_date_desc x acc) (insert_sorted x acc Hs)) as [Hp Hs'].
  split; [|exact Hs'].
  rewrite Hp, insert_perm. symmetry. apply Permutation_middle.
Qed.

End UserRes.

(** X5 [getUserReservations] with a user id: the result holds exactly the
    reservations of that user (with their multiplicity), newest first. *)
Theorem getUserReservations_sorted (now : Z) (e : env) (st : bs_state) (n : Z) (Hn : n <> 0) :
  let l := fst (BookSystem.getUserReservations now e st (Some n)) in
  Permutation l (filter (fun r => Z.eqb r.(r_userId) n) st.(reservations)) /\
  Sorted UserRes.newer_eq l.
Proof.
  unfold BookSystem.getUserReservations, BookSystem.falsy_id.
  apply Z.eqb_neq in Hn. rewrite Hn. simpl. rewrite Hn. simpl.
  unfold BookSystem.sort_by_date_desc.
  destruct (UserRes.sort_perm_sorted
              (filter (fun r => Z.eqb r.(r_userId) n) st.(reservations)) [] (Sorted_nil _))
    as [Hp Hs].
  rewrite app_nil_r in Hp. split; assumption.
Qed.

(** X6 [getUserReservations] without a user id: it lists the reservations
    of the current user, and nothing when there is none (not logged in,
    session expired, or no auth system loaded). *)
Theorem getUserReservations_current_user (now : Z) (e : env) (st : bs_state) :
  fst (BookSystem.getUserReservations now e st None) =
  match Reserve.caller now e with
  | Some u => fst (BookSystem.getUserReservations now e st (Some u.(u_id)))
  | None => []
  end.
Proof.
  unfold Reserve.caller, BookSystem.getUserReservations, BookSystem.falsy_id. simpl.
  destruct (auth_loaded e); simpl; [|reflexivity].
  destruct (Auth.getCurrentUser now (storage e)) as [[u|] s1] eqn:G; simpl; [|reflexivity].
  destruct (Z.eqb (u_id u) 0) eqn:Hz; simpl; rewrite ?G, ?Hz; reflexivity.
Qed.

(** X7 failures change nothing: a [reserveBook] or a [cancelReservation]
    that fails leaves the books, the reservations and their saved copies
    exactly as they were. *)
Theorem failed_operations_unchanged (clk : clock) (e : env) (st : bs_state) :
  (forall bookId notes_in,
     BookSystem.reserve_success (fst (fst (BookSystem.reserveBook clk e st bookId notes_in))) = true
     \/ snd (BookSystem.reserveBook clk e st bookId notes_in) = st) /\
  (forall rid,
     BookSystem.cancel_success (fst (fst (BookSystem.cancelReservation clk e st rid))) = true
     \/ snd (BookSystem.cancelReservation clk e st rid) = st).
Proof.
  split.
  - intros bookId notes_in.
    destruct (BookSystem.reserve_success _) eqn:Hs; [now left|right].
    now apply ReserveFacts.reserve_fail_unchanged.
  - intros rid. unfold BookSystem.cancelReservation.
    destruct (find _ _) as [r|]; [|now right].
    destruct (auth_loaded e); simpl; [|now right].
    destruct (Auth.getCurrentUser (clk 0%nat) (storage e)) as [[u|] s1]; simpl; [|now right].
    destruct (Z.eqb (r_userId r) (u_id u)); simpl; [now left|now right].
Qed.

Lemma getUserReservations_sorted_witness :
  (7 <> 0) /\
  Permutation (fst (BookSystem.getUserReservations 0 Examples.env_reader Examples.st_reserved (Some 7)))
    (filter (fun r => Z.eqb r.(r_userId) 7) Examples.st_reserved.(reservations)) /\
  Sorted UserRes.newer_eq
    (fst (BookSystem.getUserReservations 0 Examples.env_reader Examples.st_reserved (Some 7))).
Proof.
  split; [discriminate|].
  apply (getUserReservations_sorted 0 Examples.env_reader Examples.st_reserved 7). discriminate.
Defined.

(** ** [deleteBook] and [updateBook] *)

Module AdminFacts.
Import BookSystem.

Lemma length_remove_first {A} (p : A -> bool) (l : list A) :
  existsb p l = true -> length (remove_first p l) = pred (length l).
Proof.
  induction l as [|x l IH]; simpl; [discriminate|].
  destruct (p x); simpl; [reflexivity|].
  intros H. rewrite (IH H). destruct l; simpl in *; [discriminate|reflexivity].
Qed.

Lemma length_cancel_for_book (clk : clock) (k : nat) (bookId : string) (rs : list reservation) :
  length (cancel_for_book clk k bookId rs) = length rs.
Proof. revert k; induction rs as [|r rs IH]; intros k; simpl; [reflexivity|]. now rewrite IH. Qed.

Lemma cancel_for_book_cancelled (clk : clock) (k : nat) (bookId : string) (rs : list reservation) :
  forall r, In r (cancel_for_book clk k bookId rs) -> r_bookId r = bookId -> r_status r = Cancelled.
Proof.
  revert k; induction rs as [|r0 rs IH]; intros k r; simpl; [tauto|].
  intros [Hr|Hr]; [|now apply (IH (S k))].
  destruct ((r_bookId r0 =? bookId) && status_eqb (r_status r0) Active) eqn:Hc;
    subst r; [reflexivity|].
  intros Hb. rewrite Hb, String.eqb_refl in Hc. simpl in Hc.
  destruct (r_status r0); [discriminate|reflexivity].
Qed.

Lemma cancel_for_book_others (clk : clock) (k : nat) (bookId : string) (rs : list reservation) :
  filter (fun r => negb (r_bookId r =? bookId)) (cancel_for_book clk k bookId rs) =
  filter (fun r => negb (r_bookId r =? bookId)) rs.
Proof.
  revert k; induction rs as [|r rs IH]; intros k; simpl; [reflexivity|].
  destruct (r_bookId r =? bookId) eqn:Hb; simpl.
  - destruct (status_eqb (r_status r) Active); simpl; rewrite ?Hb; simpl; apply IH.
  - rewrite Hb. simpl. now rewrite IH.
Qed.

Lemma remove_first_split {A} (p : A -> bool) (l : list A) :
  existsb p l = true ->
  exists pre x post, l = app pre (x :: post) /\ (forall y, In y pre -> p y = false) /\
    p x = true /\ remove_first p l = app pre post.
Proof.
  induction l as [|y l IH]; simpl; [discriminate|].
  destruct (p y) eqn:Hy.
  - intros _. exists [], y, l. simpl. repeat split; tauto.
  - intros H. destruct (IH H) as [pre [x [post [Hl [Hpre [Hx Hr]]]]]].
    exists (y :: pre), x, post. simpl. rewrite Hr, Hl. repeat split; auto.
    intros z [<-|Hz]; auto.
Qed.

Definition sets_id (en : patch_entry) : bool :=
  match en with PSet (FId _) => true | _ => false end.

Lemma patch_keeps_id (ups : list patch_entry) (b : book) :
  existsb sets_id ups = false -> b_id (fold_left apply_entry ups b) = b_id b.
Proof.
  revert b; induction ups as [|en ups IH]; intros b H; simpl in *; [reflexivity|].
  apply orb_false_iff in H as [Hen Hups]. rewrite (IH _ Hups).
  destruct en as [v| |]; simpl; auto.
  destruct b; destruct v; simpl in *; auto; discriminate.
Qed.

Lemma map_update_first {A B} (f : A -> B) (p : A -> bool) (g : A -> A) (l : list A) (x : A) :
  find p l = Some x -> f (g x) = f x -> map f (update_first p g l) = map f l.
Proof.
  induction l as [|y l IH]; simpl; [discriminate|].
  destruct (p y); [intros [= ->] Hf; simpl; now rewrite Hf|].
  intros H Hf. simpl. now rewrite (IH H Hf).
Qed.

End AdminFacts.

(** X8 [deleteBook]: it returns whether a book has the id.  When none
    has, nothing changes.  Otherwise the first book with the id is
    removed and the books before and after it are kept in order, every
    reservation of that id is cancelled (none is removed), the other
    reservations are untouched, and both collections are saved. *)
Theorem deleteBook_effects (clk : clock) (st : bs_state) (bookId : string) :
  let '(ok, st') := BookSystem.deleteBook clk st bookId in
  ok = existsb (fun b => b_id b =? bookId) st.(books) /\
  if ok then
    length st'.(books) = pred (length st.(books)) /\
    (exists pre b post, st.(books) = app pre (b :: post) /\ b_id b = bookId /\
       (forall x, In x pre -> b_id x <> bookId) /\ st'.(books) = app pre post) /\
    length st'.(reservations) = length st.(reservations) /\
    (forall r, In r st'.(reservations) -> r_bookId r = bookId -> r_status r = Cancelled) /\
    filter (fun r => negb (r_bookId r =? bookId)) st'.(reservations) =
      filter (fun r => negb (r_bookId r =? bookId)) st.(reservations) /\
    st'.(saved_books) = st'.(books) /\ st'.(saved_reservations) = st'.(reservations)
  else st' = st.
Proof.
  unfold BookSystem.deleteBook.
  destruct (existsb (fun b => b_id b =? bookId) (books st)) eqn:He; simpl; [|auto].
  split; [reflexivity|].
  repeat split.
  - now apply AdminFacts.length_remove_first.
  - destruct (AdminFacts.remove_first_split _ _ He) as [pre [b [post [Hl [Hpre [Hb Hr]]]]]].
    exists pre, b, post. split; [exact Hl|]. split; [now apply String.eqb_eq|].
    split; [|exact Hr].
    intros x Hx Hxb. specialize (Hpre x Hx). rewrite Hxb, String.eqb_refl in Hpre. discriminate.
  - apply AdminFacts.length_cancel_for_book.
  - apply AdminFacts.cancel_for_book_cancelled.
  - apply AdminFacts.cancel_for_book_others.
Qed.

(** X9 [updateBook] then [getBookById]: when the updates do not set [id],
    [updateBook] returns the found book with the updates applied in key
    order ([null] when no book has the id), a later lookup of the id
    returns that updated book, and the number of books and the
    reservations are unchanged. *)
Theorem updateBook_lookup (st : bs_state) (bookId : string) (ups : list BookSystem.patch_entry)
    (Hid : existsb AdminFacts.sets_id ups = false) :
  let '(r, st') := BookSystem.updateBook st bookId ups in
  r = option_map (fun b => fold_left BookSystem.apply_entry ups b)
                 (BookSystem.getBookById st.(books) bookId) /\
  BookSystem.getBookById st'.(books) bookId = r /\
  length st'.(books) = length st.(books) /\ st'.(reservations) = st.(reservations).
Proof.
  unfold BookSystem.updateBook.
  destruct (BookSystem.getBookById (books st) bookId) as [b|] eqn:Hb; simpl; [|auto].
  split; [reflexivity|]. split; [|split; [apply ListFacts2.length_update_first|reflexivity]].
  unfold BookSystem.getBookById in *.
  rewrite ListFacts.find_update_first.
  - now rewrite Hb.
  - intros x _. rewrite (AdminFacts.patch_keeps_id _ _ Hid).
    apply find_some in Hb as [_ Hb]. exact Hb.
Qed.

(** X10 [updateBook] without [totalCopies] or [availableCopies] among the
    updates leaves every book's two copy counts as they were. *)
Theorem updateBook_keeps_counts (st : bs_state) (bookId : string) (ups : list BookSystem.patch_entry)
    (Hups : existsb Ops.touches_counts ups = false) :
  let st' := snd (BookSystem.updateBook st bookId ups) in
  map availableCopies st'.(books) = map availableCopies st.(books) /\
  map totalCopies st'.(books) = map totalCopies st.(books).
Proof.
  unfold BookSystem.updateBook.
  destruct (BookSystem.getBookById (books st) bookId) as [b|] eqn:Hb; simpl; [|auto].
  destruct (Ops.patch_keeps_counts ups b Hups) as [Ha Ht].
  split; eapply AdminFacts.map_update_first; eauto.
Qed.

Lemma updateBook_lookup_witness :
  let ups := [BookSystem.PSet (BookSystem.FTitle "Dune Messiah"); BookSystem.PUndefined "genre"] in
  existsb AdminFacts.sets_id ups = false /\
  BookSystem.getBookById (snd (BookSystem.updateBook Examples.st_free "dune" ups)).(books) "dune"
  = fst (BookSystem.updateBook Examples.st_free "dune" ups).
Proof.
  intros ups. split; [reflexivity|].
  pose proof (updateBook_lookup Examples.st_free "dune" ups eq_refl) as H.
  destruct (BookSystem.updateBook Examples.st_free "dune" ups) as [r st'].
  exact (proj1 (proj2 H)).
Defined.

Lemma updateBook_keeps_counts_witness :
  let ups := [BookSystem.PSet (BookSystem.FTitle "Dune Messiah"); BookSystem.POther "rating"] in
  existsb Ops.touches_counts ups = false /\
  map availableCopies (snd (BookSystem.updateBook Examples.st_free "dune" ups)).(books) =
  map availableCopies Examples.st_free.(books).
Proof.
  intros ups. split; [reflexivity|].
  exact (proj1 (updateBook_keeps_counts Examples.st_free "dune" ups eq_refl)).
Defined.

(** ** Sessions (auth.js) *)

Module SessionFacts.

Lemma split_at_first_spec (sep : ascii) (s : string) :
  includes s (String sep EmptyString) = true ->
  exists rest, s = split_at_first sep s ++ String sep rest /\
               includes (split_at_first sep s) (String sep EmptyString) = false.
Proof.
  induction s as [|c s IH]; simpl; [discriminate|].
  destruct (Ascii.eqb_spec sep c) as [<-|Hne].
  - rewrite Ascii.eqb_refl. intros _. exists s. split; reflexivity.
  - destruct (Ascii.eqb_spec c sep) as [Heq|_]; [congruence|]. simpl.
    intros H. destruct (IH H) as [rest [Hs Hn]].
    exists rest. split; [simpl; now rewrite Hs at 1|].
    simpl. destruct (Ascii.eqb_spec sep c); [congruence|]. exact Hn.
Qed.

End SessionFacts.

(** X11 [storeSession] and [getCurrentUser]: after a connected [login]
    succeeds at time [t], [getCurrentUser] returns the user at any time up
    to and including [t] plus 4 hours, leaving the session alone; after
    that it returns [null] and clears the four session keys. *)
Theorem login_session_window (clk : clock) (tok email password ty : string) (u : user)
    (s : session) (now : Z) :
  let s' := snd (Auth.login false (Auth.ReplyOk tok u) clk email password ty s) in
  Auth.getCurrentUser now s' =
  if Z.leb now (clk 2%nat + 4 * 60 * 60 * 1000) then (Some u, s') else (None, empty_session).
Proof.
  simpl. unfold Auth.getCurrentUser, Auth.storeSession. simpl.
  destruct (Z.ltb_spec (clk 2%nat + 14400000) now);
  destruct (Z.leb_spec now (clk 2%nat + 14400000)); try reflexivity; lia.
Qed.

(** X12 [getCurrentUser]: it changes the session only by clearing it, and
    once it has answered [null] every later call, at any time, answers
    [null] too. *)
Theorem getCurrentUser_null_stays (now : Z) (s : session) :
  match Auth.getCurrentUser now s with
  | (Some _, s') => s' = s
  | (None, s') => (s' = s \/ s' = empty_session) /\
                  forall later, Auth.getCurrentUser later s' = (None, s')
  end.
Proof.
  unfold Auth.getCurrentUser.
  destruct (currentUser s) as [u|] eqn:Hu; [|rewrite Hu; split; auto].
  destruct (authExpiry s) as [ex|]; [|reflexivity].
  destruct (Z.ltb ex now); [|reflexivity].
  split; [now right|]. intros later. reflexivity.
Qed.

(** X13 [handleOfflineLogin]: it fails, changing nothing, exactly when the
    email or the password is empty or the email has no '@'; on success
    the user has the given email and type, and the name is the part of
    the email before its first '@'. *)
Theorem offline_login_outcome (clk : clock) (email password ty : string) (s : session) :
  match Auth.handleOfflineLogin clk email password ty s with
  | (Auth.LoginOk u, _) =>
      email <> "" /\ password <> "" /\
      u.(u_email) = email /\ u.(u_type) = ty /\
      includes u.(u_name) "@" = false /\
      exists rest, email = u.(u_name) ++ "@" ++ rest
  | (Auth.LoginFail _, s') =>
      s' = s /\ (email = "" \/ password = "" \/ includes email "@" = false)
  end.
Proof.
  unfold Auth.handleOfflineLogin.
  destruct (String.eqb_spec email "") as [He|He]; simpl; [auto|].
  destruct (String.eqb_spec password "") as [Hp|Hp]; simpl; [auto|].
  destruct (includes email "@") eqn:Hat; simpl; [|auto].
  destruct (SessionFacts.split_at_first_spec "@" email Hat) as [rest [Hs Hn]].
  repeat split; auto. exists rest. exact Hs.
Qed.

(** ** Book ids of [addBook] *)

Module SlugFacts.
Import BookSystem.

Lemma slug_char_not_upper (c : ascii) :
  slug_char c = true -> lower_char c = c /\ is_space c = false.
Proof.
  unfold slug_char, lower_char, is_space, code. intros H.
  assert (Hn : (97 <= nat_of_ascii c <= 122 \/ 48 <= nat_of_ascii c <= 57 \/ nat_of_ascii c = 45)%nat).
  { repeat rewrite orb_true_iff in H. repeat rewrite andb_true_iff in H.
    rewrite !Z.leb_le, Z.eqb_eq in H. lia. }
  split.
  - destruct ((65 <=? nat_of_ascii c)%nat && (nat_of_ascii c <=? 90)%nat) eqn:E; [|reflexivity].
    apply andb_true_iff in E as [E1 E2]. apply Nat.leb_le in E1, E2. lia.
  - apply orb_false_iff. split.
    + apply andb_false_iff. destruct (Nat.leb_spec 9 (nat_of_ascii c)); [right|now left].
      apply Nat.leb_gt. lia.
    + apply Nat.eqb_neq. lia.
Qed.

Definition all_slug (s : string) : Prop :=
  forall c, In c (list_ascii_of_string s) -> slug_char c = true.

Lemma all_slug_cons (c : ascii) (s : string) :
  all_slug (String c s) -> slug_char c = true /\ all_slug s.
Proof. intros H. split; [apply H; now left|]. intros d Hd. apply H. now right. Qed.

Lemma slug_fixed (s : string) :
  all_slug s ->
  toLowerCase s = s /\ (forall b, replace_ws_runs b s = s) /\ strip_non_slug s = s.
Proof.
  induction s as [|c s IH]; intros H; simpl; [repeat split; reflexivity|].
  destruct (all_slug_cons _ _ H) as [Hc Hs].
  destruct (IH Hs) as (Hl & Hr & Hst).
  destruct (slug_char_not_upper c Hc) as [Hlc Hsp].
  repeat split.
  - now rewrite Hlc, Hl.
  - intros b. simpl. now rewrite Hsp, Hr.
  - now rewrite Hc, Hst.
Qed.

Lemma find_app_single {A} (p : A -> bool) (l : list A) (x : A) :
  find p (app l [x]) = match find p l with Some y => Some y | None => if p x then Some x else None end.
Proof.
  induction l as [|y l IH]; simpl; [reflexivity|].
  destruct (p y); [reflexivity|exact IH].
Qed.

End SlugFacts.

(** X14 [addBook] ids: the id expression is idempotent, so a title that
    is already such an id (lower-case letters, digits and hyphens) is its
    own id. *)
Theorem slug_idempotent (t : string) :
  BookSystem.slug (BookSystem.slug t) = BookSystem.slug t.
Proof.
  assert (H : SlugFacts.all_slug (BookSystem.slug t)).
  { intros c Hc. unfold BookSystem.slug in Hc. now apply AddFacts.strip_non_slug_chars in Hc. }
  destruct (SlugFacts.slug_fixed _ H) as (Hl & Hr & Hs).
  unfold BookSystem.slug at 1. rewrite Hl, Hr, Hs. reflexivity.
Qed.

(** X15 [addBook] then [getBookById]: looking up the new book's id
    afterwards returns the new book when no earlier book had that id, and
    the earlier book otherwise (the new one is appended behind it). *)
Theorem addBook_then_lookup (fullYear : Z) (st : bs_state) (d : BookSystem.book_input) :
  let '(b, st') := BookSystem.addBook fullYear st d in
  BookSystem.getBookById st'.(books) b.(b_id) =
  match BookSystem.getBookById st.(books) b.(b_id) with
  | Some old => Some old
  | None => Some b
  end.
Proof.
  unfold BookSystem.addBook, BookSystem.getBookById. simpl.
  rewrite SlugFacts.find_app_single. simpl. rewrite String.eqb_refl.
  destruct (find _ _); reflexivity.
Qed.

(** ** Store retries (server.js) *)

Module StoreFacts.

Lemma read_loop_recovers (json_parse : string -> option json)
    (readAttempt : nat -> Server.read_outcome) (filename : string) (retries i : nat) (v : json) :
  (forall j, (j < i)%nat -> Server.read_try json_parse readAttempt j = None) ->
  Server.read_try json_parse readAttempt i = Some v ->
  forall k j, (j <= i)%nat -> (i < j + k)%nat -> (j + k = retries)%nat ->
  Server.read_loop json_parse readAttempt filename retries j k
  = (Some v, repeat (Server.Sleep 100) (i - j)).
Proof.
  intros Hf Hok k. induction k as [|k IH]; intros j Hj Hik Hr; simpl; [lia|].
  destruct (Nat.eq_dec j i) as [->|Hne].
  - rewrite Hok, Nat.sub_diag. reflexivity.
  - rewrite (Hf j) by lia.
    destruct (Nat.eqb_spec j (retries - 1)); [lia|].
    rewrite (IH (S j)) by lia.
    replace (i - j)%nat with (S (i - S j)) by lia. reflexivity.
Qed.

Lemma write_loop_recovers (writeAttempt : nat -> bool) (filename : string) (retries i : nat) :
  (forall j, (j < i)%nat -> writeAttempt j = false) -> writeAttempt i = true ->
  forall k j, (j <= i)%nat -> (i < j + k)%nat -> (j + k = retries)%nat ->
  Server.write_loop writeAttempt filename retries j k
  = (Some true, repeat (Server.Sleep 100) (i - j)).
Proof.
  intros Hf Hok k. induction k as [|k IH]; intros j Hj Hik Hr; simpl; [lia|].
  destruct (Nat.eq_dec j i) as [->|Hne].
  - rewrite Hok, Nat.sub_diag. reflexivity.
  - rewrite (Hf j) by lia.
    destruct (Nat.eqb_spec j (retries - 1)); [lia|].
    rewrite (IH (S j)) by lia.
    replace (i - j)%nat with (S (i - S j)) by lia. reflexivity.
Qed.

End StoreFacts.

(** X16 [readJsonFile] and [writeJsonFile] recover: when the attempts
    before attempt [i] fail and attempt [i] (one of the [retries]) succeeds,
    the read returns the parsed value and the write returns [true], after
    exactly [i] pauses of 100 ms and without logging an error. *)
Theorem store_recovers_after_failures
    (json_parse : string -> option json) (readAttempt : nat -> Server.read_outcome)
    (writeAttempt : nat -> bool) (filename : string) (retries i i' : nat) (v : json)
    (Hi : (i < retries)%nat)
    (Hrf : forall j, (j < i)%nat -> Server.read_try json_parse readAttempt j = None)
    (Hrok : Server.read_try json_parse readAttempt i = Some v)
    (Hi' : (i' < retries)%nat)
    (Hwf : forall j, (j < i')%nat -> writeAttempt j = false)
    (Hwok : writeAttempt i' = true) :
  Server.readJsonFile json_parse readAttempt filename retries = (Some v, repeat (Server.Sleep 100) i) /\
  Server.writeJsonFile writeAttempt filename retries = (Some true, repeat (Server.Sleep 100) i').
Proof.
  unfold Server.readJsonFile, Server.writeJsonFile. split.
  - rewrite (StoreFacts.read_loop_recovers _ _ _ retries i v Hrf Hrok retries 0) by lia.
    now rewrite Nat.sub_0_r.
  - rewrite (StoreFacts.write_loop_recovers _ _ retries i' Hwf Hwok retries 0) by lia.
    now rewrite Nat.sub_0_r.
Qed.

Lemma store_recovers_after_failures_witness :
  Server.readJsonFile (fun _ => Some (JArr [])) (fun i => if Nat.eqb i 2 then Server.ReadData "[]" else Server.ReadFailed)
    "books.json" 3 = (Some (JArr []), [Server.Sleep 100; Server.Sleep 100]) /\
  Server.writeJsonFile (fun i => Nat.eqb i 1) "books.json" 3 = (Some true, [Server.Sleep 100]).
Proof.
  apply (store_recovers_after_failures (fun _ => Some (JArr []))
           (fun i => if Nat.eqb i 2 then Server.ReadData "[]" else Server.ReadFailed)
           (fun i => Nat.eqb i 1) "books.json" 3 2 1 (JArr [])); try lia.
  - intros j Hj. destruct j as [|[|j]]; [reflexivity|reflexivity|lia].
  - reflexivity.
  - intros j Hj. destruct j as [|j]; [reflexivity|lia].
  - reflexivity.
Defined.

(** ** Server endpoints (server.js) *)

Module ServerFacts.
Import Server.

Lemma get_field_app (k : string) (l1 l2 : list (string * json)) :
  get_field k (List.app l1 l2) = match get_field k l1 with Some v => Some v | None => get_field k l2 end.
Proof.
  induction l1 as [|[k' v'] l1 IH]; simpl; [reflexivity|].
  destruct (k' =? k); [reflexivity|exact IH].
Qed.

Lemma get_obj_set (k k' : string) (v : json) (kv : list (string * json)) :
  get_field k (obj_set k' v kv) = if k' =? k then Some v else get_field k kv.
Proof.
  induction kv as [|[k0 v0] kv IH]; simpl; [reflexivity|].
  destruct (String.eqb_spec k0 k') as [->|Hne]; simpl.
  - destruct (k' =? k); reflexivity.
  - destruct (String.eqb_spec k0 k) as [->|Hne']; rewrite ?IH;
      destruct (String.eqb_spec k' k); congruence.
Qed.

Lemma get_obj_fold (k : string) (entries acc : list (string * json)) :
  get_field k (fold_left (fun acc '(k, v) => obj_set k v acc) entries acc) =
  match get_field k (rev entries) with Some v => Some v | None => get_field k acc end.
Proof.
  revert acc. induction entries as [|[k' v'] entries IH]; intros acc; simpl; [reflexivity|].
  rewrite IH, get_field_app, get_obj_set. simpl.
  destruct (get_field k (rev entries)); [reflexivity|].
  destruct (k' =? k); reflexivity.
Qed.

Lemma get_field_none (k : string) (kv : list (string * json)) :
  ~ In k (map fst kv) -> get_field k kv = None.
Proof.
  induction kv as [|[k' v'] kv IH]; simpl; [reflexivity|].
  intros H. destruct (String.eqb_spec k' k); [tauto|]. apply IH. tauto.
Qed.

Lemma get_rev_nodup (k : string) (kv : list (string * json)) :
  NoDup (map fst kv) -> get_field k (rev kv) = get_field k kv.
Proof.
  induction kv as [|[k' v'] kv IH]; simpl; [reflexivity|].
  intros Hnd. inversion Hnd as [|? ? Hnin Hnd']; subst.
  rewrite get_field_app, (IH Hnd'). simpl.
  destruct (String.eqb_spec k' k) as [->|]; [|now destruct (get_field k kv)].
  now rewrite get_field_none.
Qed.



End ServerFacts.

Module ServerRoutes.
Import Server.

Section Vars.
Variable read_coll : string -> json.
Variable write_ok : string -> json -> bool.
Variable static_file : string -> option string.
Variable now uptime : Z.
Variable token_of : Z -> Z -> string.
Variable is_today : json -> bool.


Lemma route_post_books (b : json) :
  Server.app read_coll write_ok static_file now uptime token_of is_today (mkReq POST "/api/books" b)
  = handle_post_books read_coll write_ok now (mkReq POST "/api/books" b).
Proof. reflexivity. Qed.

Lemma route_post_orders (b : json) :
  Server.app read_coll write_ok static_file now uptime token_of is_today (mkReq POST "/api/orders" b)
  = handle_post_orders read_coll write_ok now (mkReq POST "/api/orders" b).
Proof. reflexivity. Qed.

End Vars.
End ServerRoutes.



(** X18 [POST /api/books] with an object body without repeated keys: 400
    when [title] or [author] is falsy.  Otherwise the new book carries
    every field of the body but [createdAt], which the server overwrites; its id is the body's [id] whenever the body
    has one (even a falsy one, which the spread puts back), and
    "book-<Date.now()>" only when it has none; the stored list with the
    new book appended is written, and the answer is 201 with the book
    when the write succeeds, 500 otherwise. *)
Theorem post_books_endpoint
    (read_coll : string -> json) (write_ok : string -> json -> bool)
    (static_file : string -> option string) (now uptime : Z)
    (token_of : Z -> Z -> string) (is_today : json -> bool)
    (kv : list (string * json)) (bs : list json)
    (Hbs : read_coll "books.json" = JArr bs) (Hnd : NoDup (map fst kv)) :
  let r := Server.app read_coll write_ok static_file now uptime token_of is_today
             (Server.mkReq Server.POST "/api/books" (JObj kv)) in
  if Server.truthy (Server.get_field "title" kv) && Server.truthy (Server.get_field "author" kv)
  then exists nb,
    r = (if write_ok "books.json" (JArr (app bs [nb])) then Server.mkResp 201 nb
         else Server.mkResp 500 (Server.message "Failed to save book")) /\
    Server.field nb "id" = match Server.get_field "id" kv with
                           | Some v => Some v
                           | None => Some (JStr ("book-" ++ to_dec now))
                           end /\
    (forall k, k <> "id" -> k <> "createdAt" -> Server.field nb k = Server.get_field k kv)
  else Server.res_status r = 400.
Proof.
  intros r. unfold r. rewrite ServerRoutes.route_post_books.
  unfold Server.handle_post_books, Server.validateRequired, Server.missing_fields. simpl.
  destruct (Server.truthy (Server.get_field "title" kv));
  destruct (Server.truthy (Server.get_field "author" kv)); simpl; try reflexivity.
  rewrite Hbs. simpl. eexists. split; [reflexivity|]. simpl.
  unfold Server.obj_literal. split.
  - rewrite ServerFacts.get_obj_fold. simpl. rewrite rev_app_distr. simpl.
    rewrite ServerFacts.get_field_app, ServerFacts.get_rev_nodup by exact Hnd. simpl.
    destruct (Server.get_field "id" kv) as [v|]; [reflexivity|].
    simpl. reflexivity.
  - intros k Hid Hca. rewrite ServerFacts.get_obj_fold. cbn [rev].
    rewrite rev_app_distr. cbn [rev List.app Server.get_field].
    rewrite (proj2 (String.eqb_neq "createdAt" k)) by congruence.
    rewrite ServerFacts.get_field_app, ServerFacts.get_rev_nodup by exact Hnd.
    destruct (Server.get_field k kv); [reflexivity|].
    cbn [Server.get_field]. rewrite (proj2 (String.eqb_neq "id" k)) by congruence.
    reflexivity.
Qed.

(** X19 [POST /api/orders] with an object body without repeated keys: 400
    when [items] or [total] is falsy.  Otherwise the new order carries
    every field of the body but [createdAt], which the server overwrites,
    and [id]: its id is the body's [id] only
    when truthy and "ORD-<Date.now()>" otherwise; the stored list with the
    order appended is written, and the answer is 201 with [{order}] when
    the write succeeds, 500 otherwise. *)
Theorem post_orders_endpoint
    (read_coll : string -> json) (write_ok : string -> json -> bool)
    (static_file : string -> option string) (now uptime : Z)
    (token_of : Z -> Z -> string) (is_today : json -> bool)
    (kv : list (string * json)) (os : list json)
    (Hos : read_coll "orders.json" = JArr os) (Hnd : NoDup (map fst kv)) :
  let r := Server.app read_coll write_ok static_file now uptime token_of is_today
             (Server.mkReq Server.POST "/api/orders" (JObj kv)) in
  if Server.truthy (Server.get_field "items" kv) && Server.truthy (Server.get_field "total" kv)
  then exists no,
    r = (if write_ok "orders.json" (JArr (app os [no]))
         then Server.mkResp 201 (JObj [("order", no)])
         else Server.mkResp 500 (Server.message "Failed to save order")) /\
    Server.field no "id" = (if Server.truthy (Server.get_field "id" kv) then Server.get_field "id" kv
                            else Some (JStr ("ORD-" ++ to_dec now))) /\
    (forall k, k <> "id" -> k <> "createdAt" -> Server.field no k = Server.get_field k kv)
  else Server.res_status r = 400.
Proof.
  intros r. unfold r. rewrite ServerRoutes.route_post_orders.
  unfold Server.handle_post_orders, Server.validateRequired, Server.missing_fields. simpl.
  destruct (Server.truthy (Server.get_field "items" kv));
  destruct (Server.truthy (Server.get_field "total" kv)); simpl; try reflexivity.
  rewrite Hos. simpl. eexists. split; [reflexivity|].
  unfold Server.field, Server.obj_literal. split.
  - rewrite ServerFacts.get_obj_fold, rev_app_distr. cbn [rev List.app Server.get_field].
    rewrite (proj2 (String.eqb_neq "createdAt" "id")) by discriminate.
    rewrite String.eqb_refl. destruct (Server.get_field "id" kv) as [v|]; [|reflexivity].
    destruct v as [|b|n|s| |]; simpl; try reflexivity;
      [destruct b | destruct (Z.eqb n 0) | destruct (s =? "")]; reflexivity.
  - intros k Hid Hca. rewrite ServerFacts.get_obj_fold, rev_app_distr.
    cbn [rev List.app Server.get_field].
    rewrite (proj2 (String.eqb_neq "createdAt" k)) by congruence.
    rewrite (proj2 (String.eqb_neq "id" k)) by congruence.
    rewrite ServerFacts.get_rev_nodup by exact Hnd.
    destruct (Server.get_field k kv); reflexivity.
Qed.

(** X20 routing: the server has no [PUT] or [DELETE] route, so every such
    request that reaches the routes, whatever its path and parsed body, is
    answered 404.  [Server.app] takes the body as [express.json] parsed it;
    a malformed or oversized JSON body is refused before routing (500 from
    the error middleware) and is outside this statement. *)
Theorem put_delete_not_found
    (read_coll : string -> json) (write_ok : string -> json -> bool)
    (static_file : string -> option string) (now uptime : Z)
    (token_of : Z -> Z -> string) (is_today : json -> bool)
    (path : string) (body : json) :
  Server.app read_coll write_ok static_file now uptime token_of is_today
    (Server.mkReq Server.PUT path body) = Server.mkResp 404 (Server.message "Endpoint not found") /\
  Server.app read_coll write_ok static_file now uptime token_of is_today
    (Server.mkReq Server.DELETE path body) = Server.mkResp 404 (Server.message "Endpoint not found").
Proof. split; reflexivity. Qed.

Lemma post_books_endpoint_witness :
  exists nb,
    Server.app (fun _ => JArr []) (fun _ _ => true) (fun _ => None) 5 0 (fun _ _ => "t") (fun _ => false)
      (Server.mkReq Server.POST "/api/books"
         (JObj [("title", JStr "Dune"); ("author", JStr "Frank Herbert"); ("id", JStr "")]))
    = Server.mkResp 201 nb /\ Server.field nb "id" = Some (JStr "").
Proof.
  pose proof (post_books_endpoint (fun _ => JArr []) (fun _ _ => true) (fun _ => None) 5 0
                (fun _ _ => "t") (fun _ => false)
                [("title", JStr "Dune"); ("author", JStr "Frank Herbert"); ("id", JStr "")] []
                eq_refl) as H.
  destruct H as (nb & Hr & Hid & _).
  - repeat constructor; simpl; intuition discriminate.
  - exists nb. split; [exact Hr | exact Hid].
Defined.

Lemma post_orders_endpoint_witness :
  exists no,
    Server.app (fun _ => JArr []) (fun _ _ => true) (fun _ => None) 5 0 (fun _ _ => "t") (fun _ => false)
      (Server.mkReq Server.POST "/api/orders"
         (JObj [("items", JArr [JStr "dune"]); ("total", JNum 12); ("id", JStr "")]))
    = Server.mkResp 201 (JObj [("order", no)]) /\ Server.field no "id" = Some (JStr "ORD-5").
Proof.
  pose proof (post_orders_endpoint (fun _ => JArr []) (fun _ _ => true) (fun _ => None) 5 0
                (fun _ _ => "t") (fun _ => false)
                [("items", JArr [JStr "dune"]); ("total", JNum 12); ("id", JStr "")] []
                eq_refl) as H.
  destruct H as (no & Hr & Hid & _).
  - repeat constructor; simpl; intuition discriminate.
  - exists no. split; [exact Hr | exact Hid].
Defined.

Module CancelStats.
Import BookSystem.

Lemma active_count_cancel (p : reservation -> bool) (t : Z) (l : list reservation) (x : reservation) :
  find p l = Some x -> x.(r_status) = Active ->
  length (filter (fun r => status_eqb r.(r_status) Active) l) =
  S (length (filter (fun r => status_eqb r.(r_status) Active) (update_first p (with_cancelled t) l))).
Proof.
  induction l as [|y l IH]; simpl; [discriminate|].
  destruct (p y).
  - intros [= ->] Hx. rewrite Hx. unfold with_cancelled. simpl. reflexivity.
  - intros H Hx. simpl. destruct (status_eqb (r_status y) Active); simpl; auto.
Qed.

End CancelStats.

(** X21 [getStats] after [cancelReservation]: cancelling an active
    reservation whose book is in the catalogue keeps the number of books
    and of copies, raises the available copies by one and lowers the
    active reservations by one. *)
Theorem cancel_updates_stats (clk : clock) (e e' : env) (st st' : bs_state) (rid : string)
    (r0 : reservation) (b : book)
    (Hf : find (fun r => r_id r =? rid) st.(reservations) = Some r0)
    (Hact : r0.(r_status) = Active)
    (Hb : BookSystem.getBookById st.(books) r0.(r_bookId) = Some b)
    (H : BookSystem.cancelReservation clk e st rid = (BookSystem.CancelOk, e', st')) :
  let s0 := BookSystem.getStats st in
  let s1 := BookSystem.getStats st' in
  BookSystem.s_totalBooks s1 = BookSystem.s_totalBooks s0 /\
  BookSystem.s_totalCopies s1 = BookSystem.s_totalCopies s0 /\
  BookSystem.s_availableCopies s1 = BookSystem.s_availableCopies s0 + 1 /\
  BookSystem.s_activeReservations s1 + 1 = BookSystem.s_activeReservations s0.
Proof.
  unfold BookSystem.cancelReservation in H. rewrite Hf in H.
  destruct (auth_loaded e); simpl in H; [|discriminate].
  destruct (Auth.getCurrentUser (clk 0%nat) (storage e)) as [[u|] s1]; [|discriminate].
  destruct (Z.eqb (r_userId r0) (u_id u)); simpl in H; [|discriminate].
  injection H as _ <-.
  unfold BookSystem.getStats; simpl.
  rewrite ListFacts2.length_update_first.
  rewrite (CancelStats.active_count_cancel _ (clk 1%nat) _ _ Hf Hact).
  unfold BookSystem.getBookById in Hb.
  rewrite (StatsFacts.sum_of_update_first availableCopies _ _ _ _ Hb).
  rewrite (StatsFacts.sum_of_update_first_same totalCopies) by reflexivity.
  simpl. repeat split; lia.
Qed.

Lemma cancel_updates_stats_witness :
  BookSystem.s_availableCopies
    (BookSystem.getStats (snd (BookSystem.cancelReservation Examples.clk_tick Examples.env_reader
                                 Examples.st_reserved "RES-1"))) =
  BookSystem.s_availableCopies (BookSystem.getStats Examples.st_reserved) + 1.
Proof.
  exact (proj1 (proj2 (proj2
    (cancel_updates_stats Examples.clk_tick Examples.env_reader
       (snd (fst (BookSystem.cancelReservation Examples.clk_tick Examples.env_reader
                    Examples.st_reserved "RES-1")))
       Examples.st_reserved
       (snd (BookSystem.cancelReservation Examples.clk_tick Examples.env_reader
               Examples.st_reserved "RES-1"))
       "RES-1" (Examples.res_dune Active) (Examples.dune 1)
       eq_refl eq_refl eq_refl eq_refl)))).
Defined.


(** X22 [addBook] number fields: when the copies, pages and year values
    are the decimal forms of non-zero safe integers, the book stores those
    integers (both counts being the copies value). *)
Theorem addBook_decimal_fields (fullYear : Z) (st : bs_state) (d : BookSystem.book_input)
    (nc np ny : Z)
    (Hnc : nc <> 0) (Hsc : Z.abs nc <= 2 ^ 53)
    (Hnp : np <> 0) (Hsp : Z.abs np <= 2 ^ 53)
    (Hny : ny <> 0) (Hsy : Z.abs ny <= 2 ^ 53)
    (Hc : d.(BookSystem.in_copies) = Some (to_dec nc))
    (Hp : d.(BookSystem.in_pages) = Some (to_dec np))
    (Hy : d.(BookSystem.in_year) = Some (to_dec ny)) :
  let b := fst (BookSystem.addBook fullYear st d) in
  b.(totalCopies) = nc /\ b.(availableCopies) = nc /\ b.(pages) = np /\ b.(year) = ny.
Proof.
  unfold BookSystem.addBook. cbn [fst totalCopies availableCopies pages year].
  rewrite Hc, Hp, Hy. unfold BookSystem.js_to_string, BookSystem.or_default.
  rewrite !DecFacts.parseInt_to_dec.
  apply Z.eqb_neq in Hnc, Hnp, Hny. rewrite Hnc, Hnp, Hny. repeat split.
Qed.

Lemma addBook_decimal_fields_witness :
  let b := fst (BookSystem.addBook 2024 Examples.st_free
                  (BookSystem.mkInput "Dune" "Frank Herbert" "Science Fiction" None
                     (Some "3") None (Some "412") (Some "1965") None)) in
  b.(totalCopies) = 3 /\ b.(availableCopies) = 3 /\ b.(pages) = 412 /\ b.(year) = 1965.
Proof.
  exact (addBook_decimal_fields 2024 Examples.st_free
           (BookSystem.mkInput "Dune" "Frank Herbert" "Science Fiction" None
              (Some "3") None (Some "412") (Some "1965") None)
           3 412 1965 ltac:(lia) ltac:(lia) ltac:(lia) ltac:(lia) ltac:(lia) ltac:(lia)
           eq_refl eq_refl eq_refl).
Defined.

(** X23 [login], offline or connected: a failed login leaves the session
    as it was; a successful one stores the returned user and the chosen
    user type in it. *)
Theorem login_session_effect (offline : bool) (reply : Auth.server_reply) (clk : clock)
    (email password ty : string) (s : session) :
  match Auth.login offline reply clk email password ty s with
  | (Auth.LoginFail _, s') => s' = s
  | (Auth.LoginOk u, s') => currentUser s' = Some u /\ userType s' = Some ty
  end.
Proof.
  unfold Auth.login. destruct offline.
  - unfold Auth.handleOfflineLogin.
    destruct ((email =? "") || (password =? "")); [reflexivity|].
    destruct (negb (includes email "@")); [reflexivity|]. split; reflexivity.
  - destruct reply; simpl; auto.
Qed.
